(** * Image knowledge base: entry store, search, field accessor, analysis adapter

    A shallow embedding of [components/db.py], [components/image_processor.py]
    and the [get_entry_field] helpers of the three user-interface variants,
    with the properties of the specification stated over it.

    Conventions.
    - A Python [str] is a [string]; one [ascii] stands for one character, so
      the characters covered are the code points 0 to 255.
    - A value fetched from the database (an element of a result tuple) is a
      [sqlval]: [SNull] is Python's [None], [SInt] an [int], [SText] a [str].
    - A Python argument whose type the code inspects is a [pyval].
    - Code that can raise returns a [result]; a [try]/[except] is a [match]
      on it.
    - The database, the file system and the clock are explicit state. *)

From Stdlib Require Import ZArith String Ascii List Numbers.DecimalString.
From stdpp Require Import base gmap strings list sorting.

Open Scope string_scope.
Open Scope Z_scope.

(** ** Results of code that can raise *)

Inductive result (E A : Type) : Type :=
| Ok (a : A)
| Raise (e : E).
Arguments Ok {E A} a.
Arguments Raise {E A} e.

Global Instance result_bind {E} : MBind (result E) := λ A B k m,
  match m with
  | Ok a => k a
  | Raise e => Raise e
  end.

(** ** Python strings *)

Module Py.

(** [str.isspace] on one character: the white space that [str.strip]
    removes.  Tab to carriage return, the four separators 28 to 31, the
    space, NEL (133) and the no-break space (160). *)
Definition isspace (c : ascii) : bool :=
  let n := nat_of_ascii c in
  ((9 <=? n) && (n <=? 13) || (28 <=? n) && (n <=? 32)
   || (n =? 133) || (n =? 160))%nat.

Fixpoint lstrip (s : string) : string :=
  match s with
  | String c s' => if isspace c then lstrip s' else s
  | EmptyString => EmptyString
  end.

Definition rstrip (s : string) : string :=
  String.rev (lstrip (String.rev s)).

(** [s.strip()] *)
Definition strip (s : string) : string := rstrip (lstrip s).

(** [s.split(sep)] for a one-character separator: never empty. *)
Fixpoint split (sep : ascii) (s : string) : list string :=
  match s with
  | EmptyString => [EmptyString]
  | String c s' =>
      if Ascii.eqb c sep then EmptyString :: split sep s'
      else match split sep s' with
           | w :: ws => String c w :: ws
           | [] => [String c EmptyString]
           end
  end.

(** [sep.join(l)] *)
Definition join (sep : string) (l : list string) : string :=
  String.concat sep l.

(** The text before the last [sep], when [s] has one. *)
Fixpoint before_last (sep : ascii) (s : string) : option string :=
  match s with
  | EmptyString => None
  | String c s' =>
      match before_last sep s' with
      | Some p => Some (String c p)
      | None => if Ascii.eqb c sep then Some EmptyString else None
      end
  end.

(** [s.rsplit(sep, 1)[0]] *)
Definition rsplit1_head (sep : ascii) (s : string) : string :=
  default s (before_last sep s).

(** [str.lower] on one character: A to Z, and the capital letters of the
    range 192 to 222 (the multiplication sign 215 apart). *)
Definition lower_char (c : ascii) : ascii :=
  let n := nat_of_ascii c in
  if ((65 <=? n) && (n <=? 90)
      || (192 <=? n) && (n <=? 222) && negb (n =? 215))%nat
  then ascii_of_nat (n + 32) else c.

Fixpoint lower (s : string) : string :=
  match s with
  | EmptyString => EmptyString
  | String c s' => String (lower_char c) (lower s')
  end.

(** [k in s] for two strings *)
Fixpoint contains (k s : string) : bool :=
  String.prefix k s
  || match s with
     | EmptyString => false
     | String _ s' => contains k s'
     end.

(** [s[:n]] *)
Fixpoint take (n : nat) (s : string) : string :=
  match n, s with
  | S n', String c s' => String c (take n' s')
  | _, _ => EmptyString
  end.

(** [len(s)] *)
Definition len (s : string) : Z := Z.of_nat (String.length s).

(** [str(n)] and [f"{n}"] for an [int] *)
Definition str_of_int (z : Z) : string :=
  NilEmpty.string_of_int (Z.to_int z).

End Py.

(** ** Values *)

(** What a cursor returns in a tuple, and what a cell stores. *)
Inductive sqlval : Type :=
| SNull
| SInt (z : Z)
| SText (s : string).

Global Instance sqlval_eq_dec : EqDecision sqlval.
Proof. solve_decision. Defined.

(** Python arguments: [None], [bool], [int], [str] and [list]. *)
#[warnings="-register-all"]
Inductive pyval : Type :=
| PNone
| PBool (b : bool)
| PInt (z : Z)
| PStr (s : string)
| PList (l : list pyval).

(** Truth value of a Python object, as [if x:] and [not x] take it. *)
Definition truthy (v : pyval) : bool :=
  match v with
  | PNone => false
  | PBool b => b
  | PInt z => negb (z =? 0)
  | PStr s => negb (String.eqb s "")
  | PList l => match l with [] => false | _ => true end
  end.

(** Truth value of a fetched cell. *)
Definition sql_truthy (v : sqlval) : bool :=
  match v with
  | SNull => false
  | SInt z => negb (z =? 0)
  | SText s => negb (String.eqb s "")
  end.

(** ** Field accessor: [get_entry_field] *)

Inductive index_error : Type := IndexError.

(** [t[i]] on a tuple, for [i >= 0]. *)
Definition tuple_get (t : list sqlval) (i : nat) : result index_error sqlval :=
  match t !! i with
  | Some v => Ok v
  | None => Raise IndexError
  end.

(** The body the three variants share; they differ in [field_mapping]. *)
Definition get_entry_field_with (field_mapping : gmap string nat)
    (entry : list sqlval) (field_name : string) : result index_error sqlval :=
  match field_mapping !! field_name with
  | None => Ok SNull
  | Some index =>
      if bool_decide (index < length entry)%nat then tuple_get entry index
      else Ok SNull
  end.

(** [streamlit_app.py] *)
Module streamlit_app.
Definition field_mapping : gmap string nat := list_to_map
  [("id", 0); ("username", 1); ("filename", 2); ("description", 3);
   ("image_caption", 4); ("link", 5); ("link_summary", 6); ("categories", 7);
   ("uploaded_at", 8); ("user_id", 9); ("file_path", 10); ("file_size", 11);
   ("title", 12); ("tags", 13); ("image_width", 14); ("image_height", 15);
   ("notes", 16); ("is_favorite", 17); ("is_archived", 18)]%nat.
Definition get_entry_field := get_entry_field_with field_mapping.
End streamlit_app.

(** [app.py] *)
Module app.
Definition field_mapping : gmap string nat := list_to_map
  [("id", 0); ("user_id", 1); ("username", 2); ("title", 3); ("filename", 4);
   ("description", 5); ("image_caption", 6); ("link", 7); ("link_summary", 8);
   ("categories", 9); ("tags", 10); ("file_path", 11); ("file_size", 12);
   ("image_width", 13); ("image_height", 14); ("notes", 15);
   ("is_favorite", 16); ("is_archived", 17); ("created_at", 18);
   ("updated_at", 19); ("uploaded_at", 20)]%nat.
Definition get_entry_field := get_entry_field_with field_mapping.
End app.

(** [streamlit_app_enhanced.py] *)
Module streamlit_app_enhanced.
Definition field_mapping : gmap string nat := list_to_map
  [("id", 0); ("username", 1); ("title", 2); ("filename", 3);
   ("description", 4); ("image_caption", 5); ("link", 6); ("link_summary", 7);
   ("categories", 8); ("tags", 9); ("file_path", 10); ("file_size", 11);
   ("image_width", 12); ("image_height", 13); ("notes", 14);
   ("is_favorite", 15); ("is_archived", 16); ("created_at", 17);
   ("updated_at", 18); ("uploaded_at", 19)]%nat.
Definition get_entry_field := get_entry_field_with field_mapping.
End streamlit_app_enhanced.

(** ** The store: [components/db.py] *)

(** *** State *)

(** A row of [users]; the columns the entry operations read. *)
Module User.
Record t : Type := mk {
  id : Z;
  username : string;
}.
End User.
Abbreviation user := User.t.

(** A row of [entries], typed by the schema of [init_db]: [id] is the
    INTEGER PRIMARY KEY; a TEXT column holds NULL or text, an INTEGER column
    NULL or an integer; the two BOOLEAN columns have NUMERIC affinity and hold
    whatever the engine made of the value bound.  The three TIMESTAMP columns
    hold NULL or the clock's text ([CURRENT_TIMESTAMP] and ISO 8601 texts are
    not numeric literals, so the engine keeps them as text).  Entry and user
    ids are integers of the engine (64 bits). *)
Module Entry.
Record t : Type := mk {
  id : Z;
  user_id : option Z;
  username : option string;
  title : option string;
  filename : option string;
  description : option string;
  image_caption : option string;
  link : option string;
  link_summary : option string;
  categories : option string;
  tags : option string;
  file_path : option string;
  file_size : option Z;
  image_width : option Z;
  image_height : option Z;
  notes : option string;
  is_favorite : sqlval;
  is_archived : sqlval;
  created_at : option string;
  updated_at : option string;
  uploaded_at : option string;
}.
End Entry.
Abbreviation entry := Entry.t.

(** [data.db]: the two tables in rowid order, and the AUTOINCREMENT counter
    of [entries] (the largest id ever given). *)
Record database : Type := {
  users : list user;
  entries : list entry;
  entries_seq : Z;
}.

(** The directory tree, flat: the files by path, and the paths on which
    writing and removing fail. *)
Record filesystem : Type := {
  files : gmap string (list Byte.byte);
  denied : gset string;
}.

(** The clock, read once per operation. *)
Record clock : Type := {
  now_isoformat : string;       (* datetime.now().isoformat() *)
  now_strftime : string;        (* datetime.now().strftime('%Y%m%d_%H%M%S') *)
  current_timestamp : string;   (* CURRENT_TIMESTAMP *)
}.

(** What the operations of this module catch with [except Exception]. *)
Inductive exn : Type :=
| TypeError
| OverflowError
| InterfaceError
| OSError
| OperationalError.

(** *** File system calls *)

(** [os.path.exists(p)] *)
Definition path_exists (p : string) (fs : filesystem) : bool :=
  bool_decide (is_Some (files fs !! p)).

(** [os.remove(p)] *)
Definition os_remove (p : string) (fs : filesystem) : result exn filesystem :=
  if bool_decide (p ∈ denied fs) then Raise OSError
  else if path_exists p fs
       then Ok {| files := delete p (files fs); denied := denied fs |}
       else Raise OSError.

(** [with open(p, "wb") as f: f.write(data)] *)
Definition write_file (p : string) (data : list Byte.byte) (fs : filesystem)
    : result exn filesystem :=
  if bool_decide (p ∈ denied fs) then Raise OSError
  else Ok {| files := <[p := data]> (files fs); denied := denied fs |}.

(** *** The engine: binding and column affinity *)

(** How the [sqlite3] module binds a Python value to a [?]. *)
Definition bind (v : pyval) : result exn sqlval :=
  match v with
  | PNone => Ok SNull
  | PBool b => Ok (SInt (if b then 1 else 0))
  | PInt z =>
      if bool_decide (- 2 ^ 63 ≤ z < 2 ^ 63) then Ok (SInt z)
      else Raise OverflowError
  | PStr s => Ok (SText s)
  | PList _ => Raise InterfaceError
  end.

(** TEXT affinity: a number is stored as its text. *)
Definition to_text (v : sqlval) : option string :=
  match v with
  | SNull => None
  | SInt z => Some (Py.str_of_int z)
  | SText s => Some s
  end.

(** The cell of a TEXT column as a tuple element. *)
Definition of_text (c : option string) : sqlval :=
  match c with
  | None => SNull
  | Some s => SText s
  end.

(** The cell of an INTEGER column as a tuple element. *)
Definition of_int (c : option Z) : sqlval :=
  match c with
  | None => SNull
  | Some z => SInt z
  end.

(** SQL's three truth values: [None] is NULL. *)
Definition sql_or (a b : option bool) : option bool :=
  match a, b with
  | Some true, _ | _, Some true => Some true
  | Some false, Some false => Some false
  | _, _ => None
  end.

Definition sql_and (a b : option bool) : option bool :=
  match a, b with
  | Some false, _ | _, Some false => Some false
  | Some true, Some true => Some true
  | _, _ => None
  end.

(** A WHERE clause keeps a row when the condition is true, not NULL. *)
Definition holds (c : option bool) : bool :=
  match c with
  | Some true => true
  | _ => false
  end.

(** [col = ?] for a TEXT column and a bound string. *)
Definition text_eq (c : option string) (s : string) : option bool :=
  (λ x, bool_decide (x = s)) <$> c.

(** [col = ?] for an INTEGER column and a bound integer. *)
Definition int_eq (c : option Z) (z : Z) : option bool :=
  (λ x, bool_decide (x = z)) <$> c.

(** [col = n] for a NUMERIC column and an integer literal: text is never
    equal to a number. *)
Definition numeric_eq (c : sqlval) (n : Z) : option bool :=
  match c with
  | SNull => None
  | SInt z => Some (bool_decide (z = n))
  | SText _ => Some false
  end.

(** [col IS NULL] *)
Definition is_null (c : sqlval) : option bool :=
  Some (match c with SNull => true | _ => false end).

(** *** LIKE *)

(** LIKE folds the case of the 26 letters of ASCII only. *)
Definition like_fold (c : ascii) : ascii :=
  let n := nat_of_ascii c in
  if ((97 <=? n) && (n <=? 122))%nat then ascii_of_nat (n - 32) else c.

Definition like_char_eq (a b : ascii) : bool :=
  Ascii.eqb (like_fold a) (like_fold b).

(** [%] stands for any run of characters, [_] for any one character; no
    escape character is set. *)
Fixpoint like_match (p : list ascii) (s : list ascii) : bool :=
  match p with
  | [] => match s with [] => true | _ => false end
  | c :: p' =>
      if Ascii.eqb c "%" then
        (fix any_run (s : list ascii) : bool :=
           like_match p' s
           || match s with [] => false | _ :: s' => any_run s' end) s
      else
        match s with
        | [] => false
        | d :: s' =>
            (Ascii.eqb c "_" || like_char_eq c d) && like_match p' s'
        end
  end.

(** What the matcher of the engine reads of a text: the characters before
    the first NUL. *)
Fixpoint c_string (s : string) : string :=
  match s with
  | EmptyString => EmptyString
  | String c s' =>
      if Ascii.eqb c Ascii.zero then EmptyString else String c (c_string s')
  end.

(** [x LIKE pattern] on text: both are read up to their first NUL. *)
Definition like (pattern : string) (x : string) : bool :=
  like_match (list_ascii_of_string (c_string pattern))
             (list_ascii_of_string (c_string x)).

(** The bytes of a text as the engine holds it, in UTF-8: one for a code
    point below 128, two for the others up to 255. *)
Fixpoint utf8_length (s : string) : Z :=
  match s with
  | EmptyString => 0
  | String c s' =>
      (if (nat_of_ascii c <? 128)%nat then 1 else 2) + utf8_length s'
  end.

(** The longest LIKE pattern the engine takes, in bytes (its default). *)
Definition max_like_pattern_length : Z := 50000.

(** [col LIKE ?] for a TEXT column.  The engine measures the whole pattern
    first, NUL or not, and raises on one that is too long, also when the
    column holds NULL. *)
Definition text_like (c : option string) (pattern : string)
    : result exn (option bool) :=
  if max_like_pattern_length <? utf8_length pattern
  then Raise OperationalError
  else Ok (like pattern <$> c).

(** [a OR b OR ...]: tested from the left, up to the first that is true. *)
Fixpoint sql_any (terms : list (result exn (option bool)))
    : result exn (option bool) :=
  match terms with
  | [] => Ok (Some false)
  | t :: ts =>
      v ← t;
      if holds v then Ok (Some true) else w ← sql_any ts; Ok (sql_or v w)
  end.

(** The terms of a WHERE clause joined by AND: tested from the left, and
    the row is left at the first that is not true, so that the terms after
    it are not evaluated. *)
Fixpoint sql_all (terms : list (result exn (option bool)))
    : result exn bool :=
  match terms with
  | [] => Ok true
  | t :: ts => v ← t; if holds v then sql_all ts else Ok false
  end.

(** *** Operations *)

(** An uploaded file: [image_file.name] and [image_file.getbuffer()]. *)
Record upload : Type := {
  name : string;
  getbuffer : list Byte.byte;
}.

(** The keyword arguments of [insert_data] after [image_file], and what
    [**kwargs] swallows. *)
Record insert_args : Type := {
  arg_description : pyval;
  arg_link : pyval;
  arg_summary : pyval;
  arg_categories : pyval;
  arg_title : pyval;
  arg_tags : pyval;
  arg_notes : pyval;
  arg_is_favorite : pyval;
  arg_kwargs : list (string * pyval);
}.

(** The defaults of the signature of [insert_data]. *)
Definition default_args : insert_args :=
  {| arg_description := PStr ""; arg_link := PStr ""; arg_summary := PStr "";
     arg_categories := PStr ""; arg_title := PStr ""; arg_tags := PStr "";
     arg_notes := PStr ""; arg_is_favorite := PBool false; arg_kwargs := [] |}.

(** What [insert_data] returns: [(True, "Entry saved successfully")],
    [(False, "User not found")] or [(False, f"Error saving entry: {e}")]. *)
Inductive insert_result : Type :=
| Saved
| UserNotFound
| SaveError (e : exn).

Definition succeeded (r : insert_result) : bool :=
  match r with
  | Saved => true
  | _ => false
  end.

(** [sep.join(l)] on a Python list: every item must be a [str]. *)
Fixpoint join_items (l : list pyval) : result exn (list string) :=
  match l with
  | [] => Ok []
  | PStr s :: l' => ss ← join_items l'; Ok (s :: ss)
  | _ :: _ => Raise TypeError
  end.

(** [if isinstance(x, list): x = ', '.join(x)] *)
Definition labels_as_text (x : pyval) : result exn pyval :=
  match x with
  | PList l => ss ← join_items l; Ok (PStr (Py.join ", " ss))
  | _ => Ok x
  end.

(** The largest id among rows. *)
Definition max_id (l : list entry) : Z :=
  foldr (λ e m, Z.max (Entry.id e) m) 0 l.

(** The id AUTOINCREMENT gives the next row. *)
Definition next_id (d : database) : Z :=
  1 + Z.max (entries_seq d) (max_id (entries d)).

(** [if user_id:] on the optional owner argument: [None] and [0] are false. *)
Definition owner_given (user_id : option Z) : option Z :=
  match user_id with
  | Some u => if truthy (PInt u) then Some u else None
  | None => None
  end.

(** [WHERE id = ? AND user_id = ?], or [WHERE id = ?] without an owner. *)
Definition where_entry (entry_id : Z) (user_id : option Z) (e : entry)
    : option bool :=
  match owner_given user_id with
  | Some u =>
      sql_and (Some (bool_decide (Entry.id e = entry_id)))
              (int_eq (Entry.user_id e) u)
  | None => Some (bool_decide (Entry.id e = entry_id))
  end.

(** The column list of the three SELECTs that return entries. *)
Definition select_tuple (e : entry) : list sqlval :=
  [SInt (Entry.id e); of_text (Entry.username e); of_text (Entry.filename e);
   of_text (Entry.description e); of_text (Entry.image_caption e);
   of_text (Entry.link e); of_text (Entry.link_summary e);
   of_text (Entry.categories e); of_text (Entry.uploaded_at e);
   of_int (Entry.user_id e); of_text (Entry.file_path e);
   of_int (Entry.file_size e); of_text (Entry.title e);
   of_text (Entry.tags e); of_int (Entry.image_width e);
   of_int (Entry.image_height e); of_text (Entry.notes e);
   Entry.is_favorite e; Entry.is_archived e].

Definition get_user_by_username (username : string) (d : database)
    : option user :=
  List.find (λ u, bool_decide (User.username u = username)) (users d).

(** [get_entry_by_id] for an id and an owner id that the engine can hold
    (64 bits), as the ids of the rows are.  It has no [try]: binding an
    integer outside that range raises [OverflowError] to the caller. *)
Definition get_entry_by_id (entry_id : Z) (user_id : option Z) (d : database)
    : option (list sqlval) :=
  select_tuple
    <$> List.find (λ e, holds (where_entry entry_id user_id e)) (entries d).

Definition allowed_fields : list string :=
  ["title"; "description"; "image_caption"; "link"; "link_summary";
   "categories"; "tags"; "notes"; "is_favorite"; "is_archived"].

(** [ORDER BY uploaded_at DESC]: NULL sorts below every text. *)
Definition uploaded_ge (a b : entry) : Prop :=
  match Entry.uploaded_at b, Entry.uploaded_at a with
  | None, _ => True
  | Some _, None => False
  | Some y, Some x => String.le y x
  end.

Global Instance uploaded_ge_dec : RelDecision uploaded_ge.
Proof.
  intros a b. unfold uploaded_ge.
  destruct (Entry.uploaded_at b), (Entry.uploaded_at a); apply _.
Defined.

(** A row put into sorted rows that come after it in the table: behind the
    rows of a later [uploaded_at], before those of the same. *)
Fixpoint sort_in (x : entry) (l : list entry) : list entry :=
  match l with
  | [] => [x]
  | y :: l' => if decide (uploaded_ge x y) then x :: l else y :: sort_in x l'
  end.

(** The rows as the sorter of the engine leaves them for
    [ORDER BY uploaded_at DESC]: rows of the same [uploaded_at] stay in
    table order. *)
Definition order_by_uploaded_at_desc (rows : list entry) : list entry :=
  foldr sort_in [] rows.

(** A full scan with a WHERE clause: the rows it keeps, in table order; an
    error on a row ends the statement. *)
Fixpoint scan (where_ : entry → result exn bool) (rows : list entry)
    : result exn (list entry) :=
  match rows with
  | [] => Ok []
  | e :: rows' =>
      b ← where_ e;
      l ← scan where_ rows';
      Ok (if (b : bool) then e :: l else l)
  end.

(** [os.path.join("uploads", f"{user_id}_{stamp}_{filename}")] *)
Definition upload_path (now : clock) (user_id : Z) (filename : string)
    : string :=
  "uploads/" ++ Py.str_of_int user_id ++ "_" ++ now_strftime now
    ++ "_" ++ filename.

Section Engine.

(** NUMERIC affinity on text, the engine's: text that reads as a number
    is stored as that number, other text is kept. *)
Variable numeric_of_text : string → sqlval.

(** [Image.open(path).size] on the bytes written, [None] when it raises. *)
Variable image_size : list Byte.byte → option (Z * Z).

Definition to_numeric (v : sqlval) : sqlval :=
  match v with
  | SText s => numeric_of_text s
  | _ => v
  end.

(** One assignment [field = ?] of an UPDATE. *)
Definition set_column (field : string) (v : sqlval) (e : entry) : entry :=
  let '(Entry.mk i u un ti fn de ca li ls cs ts fp fz iw ih no fa ar cr up ul) := e in
  if String.eqb field "title" then
    Entry.mk i u un (to_text v) fn de ca li ls cs ts fp fz iw ih no fa ar cr up ul
  else if String.eqb field "description" then
    Entry.mk i u un ti fn (to_text v) ca li ls cs ts fp fz iw ih no fa ar cr up ul
  else if String.eqb field "image_caption" then
    Entry.mk i u un ti fn de (to_text v) li ls cs ts fp fz iw ih no fa ar cr up ul
  else if String.eqb field "link" then
    Entry.mk i u un ti fn de ca (to_text v) ls cs ts fp fz iw ih no fa ar cr up ul
  else if String.eqb field "link_summary" then
    Entry.mk i u un ti fn de ca li (to_text v) cs ts fp fz iw ih no fa ar cr up ul
  else if String.eqb field "categories" then
    Entry.mk i u un ti fn de ca li ls (to_text v) ts fp fz iw ih no fa ar cr up ul
  else if String.eqb field "tags" then
    Entry.mk i u un ti fn de ca li ls cs (to_text v) fp fz iw ih no fa ar cr up ul
  else if String.eqb field "notes" then
    Entry.mk i u un ti fn de ca li ls cs ts fp fz iw ih (to_text v) fa ar cr up ul
  else if String.eqb field "is_favorite" then
    Entry.mk i u un ti fn de ca li ls cs ts fp fz iw ih no (to_numeric v) ar cr up ul
  else if String.eqb field "is_archived" then
    Entry.mk i u un ti fn de ca li ls cs ts fp fz iw ih no fa (to_numeric v) cr up ul
  else if String.eqb field "updated_at" then
    Entry.mk i u un ti fn de ca li ls cs ts fp fz iw ih no fa ar cr (to_text v) ul
  else e.

(** [SET f1 = ?, f2 = ?, ...] with its bound values, left to right. *)
Definition assign (sets : list (string * sqlval)) (e : entry) : entry :=
  fold_left (λ e '(field, v), set_column field v e) sets e.

(** Binding the values of the parameter list, in order. *)
Fixpoint bind_all (l : list (string * pyval))
    : result exn (list (string * sqlval)) :=
  match l with
  | [] => Ok []
  | (field, value) :: l' =>
      v ← bind value; vs ← bind_all l'; Ok ((field, v) :: vs)
  end.

Definition insert_data (now : clock) (username : string)
    (image_file : option upload) (a : insert_args)
    (d : database) (fs : filesystem)
    : insert_result * database * filesystem :=
  match get_user_by_username username d with
  | None => (UserNotFound, d, fs)
  | Some user =>
      let user_id := User.id user in
      let filename :=
        match image_file with Some f => name f | None => "" end in
      let saved :=
        match image_file with
        | Some f =>
            let file_path := upload_path now user_id filename in
            fs' ← write_file file_path (getbuffer f) fs;
            Ok (fs', Some file_path,
                Some (Z.of_nat (length (getbuffer f))),
                image_size (getbuffer f))
        | None => Ok (fs, None, None, None)
        end in
      match saved with
      | Raise e => (SaveError e, d, fs)
      | Ok (fs', file_path, file_size, size) =>
          let title :=
            if truthy (arg_title a) then arg_title a
            else PStr (if negb (String.eqb filename "")
                       then Py.rsplit1_head "." filename else "Untitled") in
          let row :=
            categories ← labels_as_text (arg_categories a);
            tags ← labels_as_text (arg_tags a);
            b_title ← bind title;
            b_description ← bind (arg_description a);
            b_summary ← bind (arg_summary a);
            b_link ← bind (arg_link a);
            b_categories ← bind categories;
            b_tags ← bind tags;
            b_notes ← bind (arg_notes a);
            b_is_favorite ← bind (arg_is_favorite a);
            Ok {| Entry.id := next_id d;
                  Entry.user_id := Some user_id;
                  Entry.username := Some username;
                  Entry.title := to_text b_title;
                  Entry.filename := Some filename;
                  Entry.description := to_text b_description;
                  Entry.image_caption := to_text b_summary;
                  Entry.link := to_text b_link;
                  Entry.link_summary := Some "";
                  Entry.categories := to_text b_categories;
                  Entry.tags := to_text b_tags;
                  Entry.file_path := file_path;
                  Entry.file_size := file_size;
                  Entry.image_width := fst <$> size;
                  Entry.image_height := snd <$> size;
                  Entry.notes := to_text b_notes;
                  Entry.is_favorite := to_numeric b_is_favorite;
                  Entry.is_archived := SInt 0;
                  Entry.created_at := Some (current_timestamp now);
                  Entry.updated_at := Some (current_timestamp now);
                  Entry.uploaded_at := Some (current_timestamp now) |} in
          match row with
          | Raise e => (SaveError e, d, fs')
          | Ok r =>
              (Saved,
               {| users := users d;
                  entries := entries d ++ [r];
                  entries_seq := Entry.id r |},
               fs')
          end
      end
  end.

Definition update_entry (now : clock) (entry_id : Z)
    (update_data : list (string * pyval)) (user_id : option Z)
    (d : database) : bool * database :=
  if negb (existsb (λ e, holds (where_entry entry_id user_id e)) (entries d))
  then (false, d)
  else
    let updates :=
      filter (λ fv, fv.1 ∈ allowed_fields) update_data in
    match updates with
    | [] => (false, d)
    | _ :: _ =>
        match bind_all (updates ++ [("updated_at", PStr (now_isoformat now))]) with
        | Raise _ => (false, d)
        | Ok sets =>
            (true,
             {| users := users d;
                entries :=
                  (λ e, if bool_decide (Entry.id e = entry_id)
                        then assign sets e else e) <$> entries d;
                entries_seq := entries_seq d |})
        end
    end.

Definition delete_entry (entry_id : Z) (user_id : option Z)
    (d : database) (fs : filesystem) : bool * database * filesystem :=
  match List.find (λ e, holds (where_entry entry_id user_id e)) (entries d) with
  | None => (false, d, fs)
  | Some entry =>
      let file_path := Entry.file_path entry in
      let d' :=
        {| users := users d;
           entries :=
             filter (λ e, ¬ holds (where_entry entry_id user_id e))
                    (entries d);
           entries_seq := entries_seq d |} in
      let fs' :=
        match file_path with
        | Some p =>
            if truthy (PStr p) && path_exists p fs then
              match os_remove p fs with
              | Ok fs' => fs'
              | Raise _ => fs
              end
            else fs
        | None => fs
        end in
      (true, d', fs')
  end.

End Engine.

(** *** Search *)

(** The terms [search_entries] joins with AND, in the order of the text. *)
Definition search_terms (username search_query category tag : string)
    (favorites_only exclude_archived : bool) (e : entry)
    : list (result exn (option bool)) :=
  let search_pattern := "%" ++ search_query ++ "%" in
  let category_pattern := "%" ++ category ++ "%" in
  let tag_pattern := "%" ++ tag ++ "%" in
  ([Ok (text_eq (Entry.username e) username)]
   ++ (if truthy (PStr search_query)
       then [sql_any [text_like (Entry.title e) search_pattern;
                      text_like (Entry.description e) search_pattern;
                      text_like (Entry.image_caption e) search_pattern;
                      text_like (Entry.filename e) search_pattern;
                      text_like (Entry.tags e) search_pattern;
                      text_like (Entry.notes e) search_pattern]]
       else [])
   ++ (if truthy (PStr category)
       then [text_like (Entry.categories e) category_pattern]
       else [])
   ++ (if truthy (PStr tag)
       then [text_like (Entry.tags e) tag_pattern]
       else [])
   ++ (if favorites_only
       then [Ok (numeric_eq (Entry.is_favorite e) 1)]
       else [])
   ++ (if exclude_archived
       then [Ok (sql_or (numeric_eq (Entry.is_archived e) 0)
                        (is_null (Entry.is_archived e)))]
       else []))%list.

(** The WHERE clause [search_entries] builds, on one row. *)
Definition search_where (username search_query category tag : string)
    (favorites_only exclude_archived : bool) (e : entry) : result exn bool :=
  sql_all (search_terms username search_query category tag favorites_only
             exclude_archived e).

(** The [except] branch returns the empty list. *)
Definition search_entries (username search_query category tag : string)
    (favorites_only exclude_archived : bool) (d : database)
    : list (list sqlval) :=
  match scan (search_where username search_query category tag favorites_only
                exclude_archived) (entries d) with
  | Ok rows => select_tuple <$> order_by_uploaded_at_desc rows
  | Raise _ => []
  end.

(** [SELECT DISTINCT col FROM entries WHERE username = ? AND col IS NOT NULL] *)
Definition select_distinct (col : entry → option string) (username : string)
    (d : database) : list string :=
  remove_dups
    (omap (λ e, if holds (text_eq (Entry.username e) username)
                then col e else None)
          (entries d)).

(** The loop that fills the set, and [sorted(list(...))]. *)
Definition collect_labels (rows : list string) : list string :=
  let labels : gset string :=
    fold_left
      (λ acc row0,
         if truthy (PStr row0)
         then fold_left (λ acc cat, acc ∪ {[ Py.strip cat ]})
                        (Py.split "," row0) acc
         else acc)
      rows ∅ in
  merge_sort String.le (elements labels).

Definition get_all_categories (username : string) (d : database)
    : list string :=
  collect_labels (select_distinct Entry.categories username d).

Definition get_all_tags (username : string) (d : database) : list string :=
  collect_labels (select_distinct Entry.tags username d).

(** *** Listing *)

(** [if username:] on the optional owner name: [None] and the empty string
    are false. *)
Definition name_given (username : option string) : option string :=
  match username with
  | Some u => if truthy (PStr u) then Some u else None
  | None => None
  end.

(** The WHERE clause [get_entries] builds: by name, else by owner id, else
    none. *)
Definition entries_where (username : option string) (user_id : option Z)
    (e : entry) : option bool :=
  match name_given username with
  | Some u => text_eq (Entry.username e) u
  | None =>
      match owner_given user_id with
      | Some i => int_eq (Entry.user_id e) i
      | None => Some true
      end
  end.

(** [LIMIT ?]: a negative bound is no bound. *)
Definition sql_limit {A} (n : Z) (rows : list A) : list A :=
  if n <? 0 then rows else take (Z.to_nat n) rows.

(** The parameters [get_entries] binds: the name or else the owner id, and
    the limit unless it is false. *)
Definition entries_params (username : option string)
    (user_id limit : option Z) : list pyval :=
  (match name_given username with
   | Some u => [PStr u]
   | None => match owner_given user_id with
             | Some i => [PInt i]
             | None => []
             end
   end
   ++ match limit with
      | Some n => if truthy (PInt n) then [PInt n] else []
      | None => []
      end)%list.

(** Binding a parameter list, in order. *)
Fixpoint bind_params (l : list pyval) : result exn (list sqlval) :=
  match l with
  | [] => Ok []
  | value :: l' => v ← bind value; vs ← bind_params l'; Ok (v :: vs)
  end.

(** [get_entries] has no [try]: an integer the engine cannot hold raises to
    the caller.  [if limit:] adds the LIMIT, so [None] and [0] leave it
    out. *)
Definition get_entries (username : option string) (user_id limit : option Z)
    (d : database) : result exn (list (list sqlval)) :=
  _ ← bind_params (entries_params username user_id limit);
  let rows :=
    order_by_uploaded_at_desc
      (filter (λ e, holds (entries_where username user_id e)) (entries d)) in
  Ok (select_tuple
        <$> match limit with
            | Some n => if truthy (PInt n) then sql_limit n rows else rows
            | None => rows
            end).

(** ** Analysis adapter: [components/image_processor.py] *)

Module Analysis.
Record t : Type := mk {
  summary : string;
  categories : list string;
  caption : string;
  full_analysis : string;
}.
End Analysis.

Definition newline : string := String (ascii_of_nat 10) EmptyString.

Definition category_keywords : list (string * list string) :=
  [("nature", ["tree"; "flower"; "plant"; "landscape"; "mountain"; "water";
               "sky"; "outdoor"]);
   ("people", ["person"; "people"; "human"; "face"; "portrait"; "group"]);
   ("animal", ["dog"; "cat"; "bird"; "animal"; "pet"; "wildlife"]);
   ("food", ["food"; "meal"; "cooking"; "restaurant"; "kitchen"; "eating"]);
   ("technology", ["computer"; "phone"; "device"; "screen"; "technology";
                   "digital"]);
   ("vehicle", ["car"; "truck"; "bike"; "plane"; "vehicle"; "transportation"]);
   ("building", ["building"; "house"; "architecture"; "structure"; "urban"]);
   ("art", ["painting"; "artwork"; "drawing"; "artistic"; "creative"]);
   ("sport", ["sport"; "game"; "playing"; "exercise"; "athletic"]);
   ("indoor", ["indoor"; "inside"; "room"; "interior"]);
   ("outdoor", ["outdoor"; "outside"; "exterior"; "landscape"])].

(** [any(keyword in text_lower for keyword in keywords)] *)
Definition any_keyword (keywords : list string) (text_lower : string) : bool :=
  existsb (λ keyword, Py.contains keyword text_lower) keywords.

Definition extract_categories_from_text (text : string) : list string :=
  let text_lower := Py.lower text in
  let found_categories :=
    (filter (λ ck, any_keyword ck.2 text_lower) category_keywords).*1 in
  match found_categories with
  | [] => ["general"]
  | _ :: _ => take 5 found_categories
  end.

Definition extract_caption_from_text (text : string) : string :=
  let sentences := Py.split "." text in
  match List.find (λ sentence, 10 <? Py.len (Py.strip sentence)) sentences with
  | Some sentence =>
      Py.take 100 (Py.strip sentence)
        ++ (if 100 <? Py.len sentence then "..." else "")
  | None => "Image analysis"
  end.

Section Adapter.

(** The two calls into [components/gemini_client.py]: each returns text,
    or raises; [Raise msg] carries [str(e)]. *)
Variable analyze_image_with_gemini :
  list Byte.byte → string → result string string.
Variable summarize_with_gemini : string → result string string.

Definition base_prompt_text : string :=
  newline
  ++ "        Analyze this image in detail and provide:" ++ newline
  ++ "        1. A comprehensive description of what you see" ++ newline
  ++ "        2. Identify key objects, people, activities, or scenes" ++ newline
  ++ "        3. Note colors, composition, and visual elements" ++ newline
  ++ "        4. Suggest 3-5 relevant categories/tags" ++ newline
  ++ "        ".

(** The prompt as the first lines of the [try] build it. *)
Definition build_prompt (description link : string) : string :=
  let base_prompt := base_prompt_text in
  let base_prompt :=
    if truthy (PStr description)
    then base_prompt ++ newline ++ newline
           ++ "Additional context provided by user: " ++ description
    else base_prompt in
  let base_prompt :=
    if truthy (PStr link)
    then base_prompt ++ newline ++ newline
           ++ "Related link context: " ++ link
    else base_prompt in
  base_prompt.

(** [summary] of the result: asked for when the analysis is long. *)
Definition summary_of (analysis_result : string) : result string string :=
  if 500 <? Py.len analysis_result
  then summarize_with_gemini
         ("Provide a concise summary of this image analysis: "
            ++ analysis_result)
  else Ok analysis_result.

(** The body of the [try]. *)
Definition analyze_image_try (uploaded_image : list Byte.byte)
    (description link : string) : result string Analysis.t :=
  let base_prompt := build_prompt description link in
  analysis_result ← analyze_image_with_gemini uploaded_image base_prompt;
  let categories := extract_categories_from_text analysis_result in
  summary ← summary_of analysis_result;
  Ok {| Analysis.summary := summary;
        Analysis.categories := categories;
        Analysis.caption := extract_caption_from_text analysis_result;
        Analysis.full_analysis := analysis_result |}.

(** The [except Exception as e] branch. *)
Definition fallback (error_msg : string) : Analysis.t :=
  {| Analysis.summary :=
       "Image analysis encountered an error: " ++ error_msg;
     Analysis.categories := ["error"; "fallback"];
     Analysis.caption := "Analysis failed";
     Analysis.full_analysis := "Error details: " ++ error_msg |}.

Definition analyze_image (uploaded_image : list Byte.byte)
    (description link : string) : Analysis.t :=
  match analyze_image_try uploaded_image description link with
  | Ok r => r
  | Raise error_msg => fallback error_msg
  end.

End Adapter.

(** ** Properties stated over the embedding *)

(** An accessor over [field_mapping] never raises: it answers [None] for a
    name outside the table and for a tuple that ends before the position,
    and the element at the position otherwise. *)
Definition total_accessor (field_mapping : gmap string nat)
    (get : list sqlval → string → result index_error sqlval) : Prop :=
  ∀ (entry : list sqlval) (field_name : string),
    match field_mapping !! field_name with
    | None => get entry field_name = Ok SNull
    | Some index =>
        if decide (length entry ≤ index)%nat
        then get entry field_name = Ok SNull
        else ∃ v, entry !! index = Some v ∧ get entry field_name = Ok v
    end.

(** No trigger keyword of the dictionary occurs in the lower-cased text. *)
Definition no_keyword_matches (text : string) : Prop :=
  ∀ category keywords keyword,
    (category, keywords) ∈ category_keywords →
    keyword ∈ keywords →
    Py.contains keyword (Py.lower text) = false.

(** A value the [sqlite3] module can bind. *)
Definition storable (v : pyval) : Prop := ∃ b, bind v = Ok b.

(** The labels a caller passes: a list of strings, or text. *)
Inductive labels : Type :=
| LabelList (l : list string)
| LabelText (s : string).

Definition labels_arg (x : labels) : pyval :=
  match x with
  | LabelList l => PList (PStr <$> l)
  | LabelText s => PStr s
  end.

(** The text the store is to hold for them: the items joined with a comma
    and a space, as [', '.join] does, or the text as it is. *)
Definition serialized (x : labels) : string :=
  match x with
  | LabelList l => Py.join ", " l
  | LabelText s => s
  end.

(** A call of [insert_data] that nothing stops: the owner exists, the
    upload's path can be written, and the remaining arguments can be bound. *)
Definition valid_create (now : clock) (username : string)
    (image_file : option upload) (a : insert_args)
    (d : database) (fs : filesystem) : Prop :=
  (∃ u, get_user_by_username username d = Some u
        ∧ ∀ f, image_file = Some f →
               upload_path now (User.id u) (name f) ∉ denied fs)
  ∧ storable (arg_title a) ∧ storable (arg_description a)
  ∧ storable (arg_summary a) ∧ storable (arg_link a)
  ∧ storable (arg_notes a) ∧ storable (arg_is_favorite a).

(** [a] with other keyword arguments left to [**kwargs]. *)
Definition with_kwargs (a : insert_args) (kwargs : list (string * pyval))
    : insert_args :=
  {| arg_description := arg_description a; arg_link := arg_link a;
     arg_summary := arg_summary a; arg_categories := arg_categories a;
     arg_title := arg_title a; arg_tags := arg_tags a;
     arg_notes := arg_notes a; arg_is_favorite := arg_is_favorite a;
     arg_kwargs := kwargs |}.

(** The rows a call addresses: those of the id, and of the owner when an
    owner id other than 0 is supplied. *)
Definition targets (entry_id : Z) (user_id : option Z) (e : entry) : Prop :=
  Entry.id e = entry_id
  ∧ ∀ u, user_id = Some u → u ≠ 0 → Entry.user_id e = Some u.

(** The cell of a column that an UPDATE can set, as a tuple element. *)
Definition get_column (field : string) (e : entry) : sqlval :=
  if String.eqb field "title" then of_text (Entry.title e)
  else if String.eqb field "description" then of_text (Entry.description e)
  else if String.eqb field "image_caption" then of_text (Entry.image_caption e)
  else if String.eqb field "link" then of_text (Entry.link e)
  else if String.eqb field "link_summary" then of_text (Entry.link_summary e)
  else if String.eqb field "categories" then of_text (Entry.categories e)
  else if String.eqb field "tags" then of_text (Entry.tags e)
  else if String.eqb field "notes" then of_text (Entry.notes e)
  else if String.eqb field "is_favorite" then Entry.is_favorite e
  else if String.eqb field "is_archived" then Entry.is_archived e
  else if String.eqb field "updated_at" then of_text (Entry.updated_at e)
  else SNull.

(** The columns no UPDATE of [update_entry] names. *)
Definition frozen (e : entry) :=
  (Entry.id e, Entry.user_id e, Entry.username e, Entry.filename e,
   Entry.file_path e, Entry.file_size e, Entry.image_width e,
   Entry.image_height e, Entry.created_at e, Entry.uploaded_at e).

(** What a column holds after [field = ?] with [v] bound. *)
Definition stored (numeric_of_text : string → sqlval) (field : string)
    (v : sqlval) : sqlval :=
  if String.eqb field "is_favorite" || String.eqb field "is_archived"
  then to_numeric numeric_of_text v
  else of_text (to_text v).

(** The six columns a search query is matched against. *)
Definition searched_fields (e : entry) : list (option string) :=
  [Entry.title e; Entry.description e; Entry.image_caption e;
   Entry.filename e; Entry.tags e; Entry.notes e].

(** The pattern [%query%] matches one of the six columns. *)
Definition pattern_matches (search_query : string) (e : entry) : bool :=
  existsb (λ c, match c with
                | Some s => like ("%" ++ search_query ++ "%") s
                | None => false
                end)
          (searched_fields e).

(** The pattern [%q%] is within the engine's bound. *)
Definition pattern_fits (q : string) : bool :=
  utf8_length ("%" ++ q ++ "%") <=? max_like_pattern_length.

(** A filter that is left out, or whose pattern is within the bound. *)
Definition filter_fits (q : string) : bool :=
  negb (truthy (PStr q)) || pattern_fits q.

(** The pattern [%q%] matches the column. *)
Definition column_like (c : option string) (q : string) : bool :=
  match c with
  | Some s => like ("%" ++ q ++ "%") s
  | None => false
  end.

(** The row has the owner's name and passes each filter that is given. *)
Definition passes_filters (username search_query category tag : string)
    (favorites_only exclude_archived : bool) (e : entry) : bool :=
  holds (text_eq (Entry.username e) username)
  && (negb (truthy (PStr search_query)) || pattern_matches search_query e)
  && (negb (truthy (PStr category))
      || column_like (Entry.categories e) category)
  && (negb (truthy (PStr tag)) || column_like (Entry.tags e) tag)
  && (negb favorites_only || holds (numeric_eq (Entry.is_favorite e) 1))
  && (negb exclude_archived
      || holds (sql_or (numeric_eq (Entry.is_archived e) 0)
                       (is_null (Entry.is_archived e)))).

(** [s] has no NUL character. *)
Definition nul_free (s : string) : Prop := c_string s = s.

(** The letters a to z as capitals, and A to Z as small letters. *)
Fixpoint ascii_upper (s : string) : string :=
  match s with
  | EmptyString => EmptyString
  | String c s' => String (like_fold c) (ascii_upper s')
  end.

Definition ascii_lower_char (c : ascii) : ascii :=
  let n := nat_of_ascii c in
  if ((65 <=? n) && (n <=? 90))%nat then ascii_of_nat (n + 32) else c.

Fixpoint ascii_lower (s : string) : string :=
  match s with
  | EmptyString => EmptyString
  | String c s' => String (ascii_lower_char c) (ascii_lower s')
  end.

(** [q] occurs in [s] as a substring, up to the case of the letters of
    ASCII. *)
Definition occurs_folded (q s : string) : Prop :=
  ∃ pre m post, s = pre ++ m ++ post ∧ ascii_upper m = ascii_upper q.

(** [q] has neither of the two wildcards of LIKE. *)
Definition wildcard_free (q : string) : Prop :=
  ∀ c, c ∈ list_ascii_of_string q → c ≠ "%"%char ∧ c ≠ "_"%char.

(** [q] occurs in [s] as a substring, case ignored as Python's [lower]
    does. *)
Definition occurs_ignoring_case (q s : string) : bool :=
  Py.contains (Py.lower q) (Py.lower s).

(** The labels of a stored text: its pieces between commas, stripped. *)
Definition labels_of (s : string) : list string :=
  Py.strip <$> Py.split "," s.

(** [result] lists, in ascending order and once each, the labels of the
    non-empty texts that the owner's entries hold in the column. *)
Definition lists_labels (col : entry → option string) (username : string)
    (d : database) (result : list string) : Prop :=
  StronglySorted String.le result
  ∧ NoDup result
  ∧ ∀ x, x ∈ result ↔
      ∃ e s, e ∈ entries d ∧ Entry.username e = Some username
             ∧ col e = Some s ∧ s ≠ "" ∧ x ∈ labels_of s.

(** No two entries have the same id. *)
Definition unique_ids (d : database) : Prop :=
  NoDup (Entry.id <$> entries d).

(** The AUTOINCREMENT counter is at least every id in the table. *)
Definition seq_bounds (d : database) : Prop :=
  ∀ e, e ∈ entries d → Entry.id e ≤ entries_seq d.

(** The column names of the SELECT that [get_entries], [get_entry_by_id] and
    [search_entries] share, in its order. *)
Definition select_columns : list string :=
  ["id"; "username"; "filename"; "description"; "image_caption"; "link";
   "link_summary"; "categories"; "uploaded_at"; "user_id"; "file_path";
   "file_size"; "title"; "tags"; "image_width"; "image_height"; "notes";
   "is_favorite"; "is_archived"].

(** The [uploaded_at] of a tuple of that SELECT: its ninth element. *)
Definition tuple_uploaded_at (t : list sqlval) : sqlval :=
  default SNull (t !! 8%nat).

(** [a] sorts at or above [b]: NULL is below every text, and text compares
    character by character. *)
Definition cell_ge (a b : sqlval) : Prop :=
  match b, a with
  | SNull, _ => True
  | SText y, SText x => String.le y x
  | _, _ => False
  end.

(** [',' not in s] *)
Definition comma_free (s : string) : Prop := Py.contains "," s = false.

(** The title [insert_data] stores when the [title] argument is false: the
    file name up to its last full stop, or "Untitled" without a file name. *)
Definition default_title (image_file : option upload) : string :=
  match image_file with
  | Some f => if negb (String.eqb (name f) "")
              then Py.rsplit1_head "." (name f) else "Untitled"
  | None => "Untitled"
  end.

(** ** Example data *)

(** An engine for the examples: none of their texts reads as a number, and
    none of their uploads decodes as an image. *)
Definition keep_text (s : string) : sqlval := SText s.
Definition no_size (_ : list Byte.byte) : option (Z * Z) := None.

Definition noon : clock :=
  {| now_isoformat := "2024-05-06T12:00:00.000000";
     now_strftime := "20240506_120000";
     current_timestamp := "2024-05-06 12:00:00" |}.

Definition empty_disk : filesystem := {| files := ∅; denied := ∅ |}.

(** Two users and no entry. *)
Definition two_users : database :=
  {| users := [User.mk 7 "ann"; User.mk 8 "bob"];
     entries := [];
     entries_seq := 0 |}.

(** A call that passes its categories as a list, its tags as text, and a
    [caption] keyword that the signature does not have. *)
Definition sunset_args : insert_args :=
  {| arg_description := PStr "Evening sky"; arg_link := PStr "";
     arg_summary := PStr "A red sky over water";
     arg_categories := PList [PStr "nature"; PStr "outdoor"];
     arg_title := PStr ""; arg_tags := PStr "sky,red";
     arg_notes := PStr ""; arg_is_favorite := PBool false;
     arg_kwargs := [("caption", PStr "Dusk")] |}.

(** Entry 5 belongs to user 7 and has a file; entry 6 belongs to user 8. *)
Definition entry_5 : entry :=
  {| Entry.id := 5; Entry.user_id := Some 7; Entry.username := Some "ann";
     Entry.title := Some "abc"; Entry.filename := Some "";
     Entry.description := Some "A Red Sky"; Entry.image_caption := None;
     Entry.link := None; Entry.link_summary := Some "";
     Entry.categories := Some ""; Entry.tags := Some "";
     Entry.file_path := Some "uploads/7_20240101_090000_sky.jpg";
     Entry.file_size := Some 3; Entry.image_width := None;
     Entry.image_height := None; Entry.notes := None;
     Entry.is_favorite := SInt 0; Entry.is_archived := SNull;
     Entry.created_at := Some "2024-01-01 09:00:00";
     Entry.updated_at := Some "2024-01-01 09:00:00";
     Entry.uploaded_at := Some "2024-01-01 09:00:00" |}.

Definition entry_6 : entry :=
  {| Entry.id := 6; Entry.user_id := Some 8; Entry.username := Some "bob";
     Entry.title := Some "Harbour"; Entry.filename := Some "";
     Entry.description := Some "Boats"; Entry.image_caption := None;
     Entry.link := None; Entry.link_summary := Some "";
     Entry.categories := Some "a, b"; Entry.tags := Some "";
     Entry.file_path := None;
     Entry.file_size := None; Entry.image_width := None;
     Entry.image_height := None; Entry.notes := None;
     Entry.is_favorite := SInt 0; Entry.is_archived := SInt 1;
     Entry.created_at := Some "2024-01-02 09:00:00";
     Entry.updated_at := Some "2024-01-02 09:00:00";
     Entry.uploaded_at := Some "2024-01-02 09:00:00" |}.

Definition two_entries : database :=
  {| users := [User.mk 7 "ann"; User.mk 8 "bob"];
     entries := [entry_5; entry_6];
     entries_seq := 6 |}.

(** The file of entry 5 is on the disk. *)
Definition one_file : filesystem :=
  {| files := {[ "uploads/7_20240101_090000_sky.jpg" := [] ]};
     denied := ∅ |}.

(** The same, and the file cannot be removed. *)
Definition one_file_denied : filesystem :=
  {| files := {[ "uploads/7_20240101_090000_sky.jpg" := [] ]};
     denied := {[ "uploads/7_20240101_090000_sky.jpg" ]} |}.

(** An entry of user 7 with the same text as categories and as tags. *)
Definition labelled_entry (id : Z) (labels : string) : entry :=
  {| Entry.id := id; Entry.user_id := Some 7; Entry.username := Some "ann";
     Entry.title := Some "Untitled"; Entry.filename := Some "";
     Entry.description := Some ""; Entry.image_caption := Some "";
     Entry.link := Some ""; Entry.link_summary := Some "";
     Entry.categories := Some labels; Entry.tags := Some labels;
     Entry.file_path := None; Entry.file_size := None;
     Entry.image_width := None; Entry.image_height := None;
     Entry.notes := Some ""; Entry.is_favorite := SInt 0;
     Entry.is_archived := SInt 0;
     Entry.created_at := Some "2024-01-03 09:00:00";
     Entry.updated_at := Some "2024-01-03 09:00:00";
     Entry.uploaded_at := Some "2024-01-03 09:00:00" |}.

(** The labels "a, b" and " b , c" across two entries. *)
Definition labelled : database :=
  {| users := [User.mk 7 "ann"];
     entries := [labelled_entry 1 "a, b"; labelled_entry 2 " b , c"];
     entries_seq := 2 |}.

(** The letter e with an acute accent, small (code point 233) and capital
    (code point 201). *)
Definition e_acute : string := String (ascii_of_nat 233) EmptyString.
Definition E_acute : string := String (ascii_of_nat 201) EmptyString.

(** One entry of user 7, with the small accented letter as description. *)
Definition accented : database :=
  {| users := [User.mk 7 "ann"];
     entries :=
       [set_column keep_text "description" (SText e_acute)
          (labelled_entry 1 "")];
     entries_seq := 1 |}.

(** The text "a", a NUL character, "b". *)
Definition a_nul_b : string := "a" ++ String Ascii.zero "b".

(** One entry of user 7, with that text as description. *)
Definition with_nul : database :=
  {| users := [User.mk 7 "ann"];
     entries :=
       [set_column keep_text "description" (SText a_nul_b)
          (labelled_entry 1 "")];
     entries_seq := 1 |}.

(** A query of 49999 letters: its pattern has 50001 bytes. *)
Definition long_query : string :=
  string_of_list_ascii (repeat "a"%char (Z.to_nat 49999)).

(** One entry of user 7, with that query as description. *)
Definition with_long_text : database :=
  {| users := [User.mk 7 "ann"];
     entries :=
       [set_column keep_text "description" (SText long_query)
          (labelled_entry 1 "")];
     entries_seq := 1 |}.

(** An upload of no bytes named "sunset.jpg". *)
Definition sunset_jpg : upload := {| name := "sunset.jpg"; getbuffer := [] |}.

(** A call whose list of categories holds a number. *)
Definition number_label_args : insert_args :=
  {| arg_description := PStr ""; arg_link := PStr ""; arg_summary := PStr "";
     arg_categories := PList [PInt 1]; arg_title := PStr "";
     arg_tags := PStr ""; arg_notes := PStr "";
     arg_is_favorite := PBool false; arg_kwargs := [] |}.

(** * Theorems *)

Set Warnings "-clear-no-such-hyp".

(** ** Field accessor *)

Lemma get_entry_field_with_total (m : gmap string nat) :
  total_accessor m (get_entry_field_with m).
Proof.
  intros entry field_name. unfold get_entry_field_with, tuple_get.
  destruct (m !! field_name) as [index|]; [|reflexivity].
  destruct (decide (length entry ≤ index)%nat) as [Hle|Hgt].
  - rewrite bool_decide_eq_false_2 by lia. reflexivity.
  - rewrite bool_decide_eq_true_2 by lia.
    destruct (lookup_lt_is_Some_2 entry index) as [v Hv]; [lia|].
    exists v. rewrite Hv. auto.
Qed.

(** C8. [get_entry_field], in each of its three variants, is total and never
    raises an index error: it returns [None] when the field name is not in
    the variant's name-to-position table and when the tuple's length is at
    most the mapped position, and the tuple's element at that position
    otherwise. *)
Theorem get_entry_field_total :
  total_accessor streamlit_app.field_mapping streamlit_app.get_entry_field
  ∧ total_accessor app.field_mapping app.get_entry_field
  ∧ total_accessor streamlit_app_enhanced.field_mapping
      streamlit_app_enhanced.get_entry_field.
Proof. split; [|split]; apply get_entry_field_with_total. Qed.

(** The accessor on a short tuple and on a full one. *)
Example get_entry_field_short_tuple :
  streamlit_app.get_entry_field [SInt 1; SText "ann"] "is_archived" = Ok SNull
  ∧ streamlit_app.get_entry_field [SInt 1; SText "ann"] "username"
    = Ok (SText "ann")
  ∧ streamlit_app.get_entry_field [SInt 1; SText "ann"] "owner" = Ok SNull.
Proof. repeat split; vm_compute; reflexivity. Qed.

(** ** Analysis adapter *)

Lemma extract_categories_at_most_5 (text : string) :
  (length (extract_categories_from_text text) ≤ 5)%nat.
Proof.
  unfold extract_categories_from_text.
  destruct ((filter _ category_keywords).*1) as [|c l] eqn:E.
  - simpl. lia.
  - rewrite length_take. lia.
Qed.

Lemma filter_none {A} (P : A → Prop) `{∀ x, Decision (P x)} (l : list A) :
  (∀ x, x ∈ l → ¬ P x) → filter P l = [].
Proof.
  induction l as [|x l IH]; intros Hl; [reflexivity|].
  rewrite filter_cons_False by (apply Hl; left).
  apply IH. intros y Hy. apply Hl. right. exact Hy.
Qed.

Lemma extract_categories_general (text : string) :
  no_keyword_matches text → extract_categories_from_text text = ["general"].
Proof.
  intros Hno. unfold extract_categories_from_text.
  assert (filter (λ ck : string * list string, any_keyword ck.2 (Py.lower text))
                 category_keywords = []) as ->; [|reflexivity].
  apply filter_none. intros [category keywords] Hin Hany.
  apply Is_true_true in Hany. unfold any_keyword in Hany. simpl in Hany.
  apply existsb_exists in Hany as (keyword & Hk & Hc).
  rewrite (Hno category keywords keyword) in Hc; [discriminate|exact Hin|].
  apply list_elem_of_In. exact Hk.
Qed.

(** C9. [analyze_image] returns a record on every input and for every
    behaviour of the two remote calls, and its categories are at most 5.
    When the analysis call returns a text and the summary is obtained, the
    record has that text as [full_analysis], the categories extracted from
    it, and these are exactly ["general"] when no trigger keyword of the
    dictionary occurs in the lower-cased text.  When either call raises, the
    record is the marked fallback built from the error message. *)
Theorem analyze_image_never_raises
    (analyze_image_with_gemini : list Byte.byte → string → result string string)
    (summarize_with_gemini : string → result string string)
    (uploaded_image : list Byte.byte) (description link : string) :
  let r := analyze_image analyze_image_with_gemini summarize_with_gemini
             uploaded_image description link in
  (length (Analysis.categories r) ≤ 5)%nat
  ∧ match analyze_image_with_gemini uploaded_image
            (build_prompt description link) with
    | Ok text =>
        match summary_of summarize_with_gemini text with
        | Ok summary =>
            Analysis.full_analysis r = text
            ∧ Analysis.summary r = summary
            ∧ Analysis.caption r = extract_caption_from_text text
            ∧ Analysis.categories r = extract_categories_from_text text
            ∧ (no_keyword_matches text → Analysis.categories r = ["general"])
        | Raise error_msg =>
            r = fallback error_msg
            ∧ Analysis.categories r = ["error"; "fallback"]
            ∧ Analysis.caption r = "Analysis failed"
        end
    | Raise error_msg =>
        r = fallback error_msg
        ∧ Analysis.categories r = ["error"; "fallback"]
        ∧ Analysis.caption r = "Analysis failed"
    end.
Proof.
  intros r. subst r. unfold analyze_image, analyze_image_try.
  destruct (analyze_image_with_gemini _ _) as [text|msg]; cbn.
  - destruct (summary_of summarize_with_gemini text) as [summary|msg]; cbn.
    + split; [apply extract_categories_at_most_5|].
      repeat split. apply extract_categories_general.
    + split; [lia|]. auto.
  - split; [lia|]. auto.
Qed.

(** A text with no trigger keyword, one with seven categories, and a call
    that raises. *)
Example analyze_image_cases :
  Analysis.categories
    (analyze_image (λ _ _, Ok "A blank page") (λ _, Ok "") [] "" "")
  = ["general"]
  ∧ Analysis.categories
      (analyze_image
         (λ _ _, Ok "A DOG and people eating food near a tree, a car, a house and a phone")
         (λ _, Ok "") [] "" "")
    = ["nature"; "people"; "animal"; "food"; "technology"]
  ∧ analyze_image (λ _ _, Raise "timeout") (λ _, Ok "") [] "" ""
    = fallback "timeout".
Proof. repeat split; vm_compute; reflexivity. Qed.

(** ** Create and read back *)

Lemma max_id_ge (l : list entry) (e : entry) :
  e ∈ l → Entry.id e ≤ max_id l.
Proof.
  induction l as [|x l IH]; intros Hin.
  - inversion Hin.
  - apply elem_of_cons in Hin as [->|Hin]; simpl; [lia|].
    specialize (IH Hin). lia.
Qed.

Lemma next_id_fresh (d : database) (e : entry) :
  e ∈ entries d → Entry.id e < next_id d.
Proof. intros Hin. apply max_id_ge in Hin. unfold next_id. lia. Qed.

Lemma find_snoc {A} (f : A → bool) (l : list A) (x : A) :
  (∀ y, y ∈ l → f y = false) → f x = true → List.find f (l ++ [x]) = Some x.
Proof.
  intros Hl Hx. induction l as [|y l IH]; simpl.
  - rewrite Hx. reflexivity.
  - rewrite (Hl y) by left. apply IH. intros z Hz. apply Hl. right. exact Hz.
Qed.

Lemma where_entry_other_id (entry_id : Z) (user_id : option Z) (e : entry) :
  Entry.id e ≠ entry_id → holds (where_entry entry_id user_id e) = false.
Proof.
  intros Hne. unfold where_entry.
  rewrite bool_decide_eq_false_2 by exact Hne.
  destruct (owner_given user_id) as [u|]; [|reflexivity].
  unfold int_eq. destruct (Entry.user_id e) as [x|]; simpl; [|reflexivity].
  destruct (bool_decide (x = u)); reflexivity.
Qed.

Lemma where_entry_owned (entry_id u : Z) (user_id : option Z) (e : entry) :
  Entry.id e = entry_id → Entry.user_id e = Some u →
  user_id = None ∨ user_id = Some u →
  holds (where_entry entry_id user_id e) = true.
Proof.
  intros Hid Hu Hor. unfold where_entry.
  rewrite bool_decide_eq_true_2 by exact Hid.
  destruct Hor as [->| ->]; simpl; [reflexivity|].
  destruct (negb (u =? 0)); [|reflexivity].
  rewrite Hu. simpl. rewrite bool_decide_eq_true_2 by reflexivity. reflexivity.
Qed.

Lemma join_items_strs (l : list string) : join_items (PStr <$> l) = Ok l.
Proof.
  induction l as [|s l IH]; [reflexivity|].
  cbn. rewrite IH. reflexivity.
Qed.

Lemma labels_as_text_arg (x : labels) :
  labels_as_text (labels_arg x) = Ok (PStr (serialized x)).
Proof.
  destruct x as [l|s]; simpl; [|reflexivity].
  rewrite join_items_strs. reflexivity.
Qed.

Lemma select_tuple_categories (e : entry) :
  streamlit_app.get_entry_field (select_tuple e) "categories"
  = Ok (of_text (Entry.categories e)).
Proof. vm_compute. reflexivity. Qed.

Lemma select_tuple_tags (e : entry) :
  streamlit_app.get_entry_field (select_tuple e) "tags"
  = Ok (of_text (Entry.tags e)).
Proof. vm_compute. reflexivity. Qed.

Lemma select_tuple_link_summary (e : entry) :
  streamlit_app.get_entry_field (select_tuple e) "link_summary"
  = Ok (of_text (Entry.link_summary e)).
Proof. vm_compute. reflexivity. Qed.

Lemma select_tuple_image_caption (e : entry) :
  streamlit_app.get_entry_field (select_tuple e) "image_caption"
  = Ok (of_text (Entry.image_caption e)).
Proof. vm_compute. reflexivity. Qed.

Lemma select_tuple_is_archived (e : entry) :
  streamlit_app.get_entry_field (select_tuple e) "is_archived"
  = Ok (Entry.is_archived e).
Proof. vm_compute. reflexivity. Qed.

Section CreateRead.

Variable numeric_of_text : string → sqlval.
Variable image_size : list Byte.byte → option (Z * Z).

(** What a successful [insert_data] stored. *)
Lemma insert_data_saved now username image_file a d fs d' fs' :
  insert_data numeric_of_text image_size now username image_file a d fs
  = (Saved, d', fs') →
  ∃ r categories tags b_summary b_categories b_tags,
    d' = {| users := users d; entries := entries d ++ [r];
            entries_seq := next_id d |}
    ∧ Entry.id r = next_id d
    ∧ Entry.username r = Some username
    ∧ Entry.user_id r = User.id <$> get_user_by_username username d
    ∧ Entry.link_summary r = Some ""
    ∧ Entry.is_archived r = SInt 0
    ∧ bind (arg_summary a) = Ok b_summary
    ∧ Entry.image_caption r = to_text b_summary
    ∧ labels_as_text (arg_categories a) = Ok categories
    ∧ bind categories = Ok b_categories
    ∧ Entry.categories r = to_text b_categories
    ∧ labels_as_text (arg_tags a) = Ok tags
    ∧ bind tags = Ok b_tags
    ∧ Entry.tags r = to_text b_tags.
Proof.
  unfold insert_data.
  destruct (get_user_by_username username d) as [u|]; [|discriminate].
  match goal with |- context [match ?s with Ok _ => _ | Raise _ => _ end] =>
    destruct s as [[[[fs1 file_path] file_size] size]|] end; [|discriminate].
  destruct (labels_as_text (arg_categories a)) as [categories|] eqn:Hc;
    [|discriminate].
  destruct (labels_as_text (arg_tags a)) as [tags|] eqn:Ht; [|discriminate].
  cbn.
  destruct (bind (if truthy (arg_title a) then _ else _)) as [b_title|];
    [|discriminate].
  destruct (bind (arg_description a)) as [b_description|]; [|discriminate].
  destruct (bind (arg_summary a)) as [b_summary|] eqn:Hbs; [|discriminate].
  destruct (bind (arg_link a)) as [b_link|]; [|discriminate].
  destruct (bind categories) as [b_categories|] eqn:Hbc; [|discriminate].
  destruct (bind tags) as [b_tags|] eqn:Hbt; [|discriminate].
  destruct (bind (arg_notes a)) as [b_notes|]; [|discriminate].
  destruct (bind (arg_is_favorite a)) as [b_fav|]; [|discriminate].
  cbn. intros [= <- <-].
  eexists _, categories, tags, b_summary, b_categories, b_tags.
  repeat split; first [reflexivity | assumption].
Qed.

(** A valid call with labels as a list of strings or as text is saved. *)
Lemma insert_data_succeeds now username image_file a d fs cats tgs :
  valid_create now username image_file a d fs →
  arg_categories a = labels_arg cats →
  arg_tags a = labels_arg tgs →
  ∃ d' fs',
    insert_data numeric_of_text image_size now username image_file a d fs
    = (Saved, d', fs').
Proof.
  intros ((u & Hu & Hw) & [bt Ht] & [bd Hd] & [bs Hs] & [bl Hl] & [bn Hn]
          & [bf Hf]) Hc Hg.
  unfold insert_data. rewrite Hu, Hc, Hg, !labels_as_text_arg.
  assert (∃ b, bind (if truthy (arg_title a) then arg_title a
                     else PStr (if negb (String.eqb
                                  match image_file with
                                  | Some f => name f | None => "" end "")
                                then Py.rsplit1_head "."
                                  match image_file with
                                  | Some f => name f | None => "" end
                                else "Untitled")) = Ok b) as [bt' Ht'].
  { destruct (truthy (arg_title a)); eauto. }
  destruct image_file as [f|].
  - unfold write_file.
    rewrite bool_decide_eq_false_2 by (apply Hw; reflexivity).
    cbn. cbn in Ht'. rewrite Ht', Hd, Hs, Hl, Hn, Hf. cbn. eauto.
  - cbn. cbn in Ht'. rewrite Ht', Hd, Hs, Hl, Hn, Hf. cbn. eauto.
Qed.

(** The new row is the one [get_entry_by_id] finds under the new id. *)
Lemma get_entry_by_id_new (d : database) (r : entry) (user_id : option Z) u :
  Entry.id r = next_id d → Entry.user_id r = Some u →
  user_id = None ∨ user_id = Some u →
  get_entry_by_id (next_id d) user_id
    {| users := users d; entries := entries d ++ [r];
       entries_seq := next_id d |} = Some (select_tuple r).
Proof.
  intros Hid Hu Hor. unfold get_entry_by_id. cbn [entries].
  rewrite find_snoc; [reflexivity| |].
  - intros y Hy. apply where_entry_other_id.
    apply next_id_fresh in Hy. lia.
  - eapply where_entry_owned; eauto.
Qed.

(** C1. For a valid owner and remaining arguments, and labels given as a
    list of strings or as text, [insert_data] saves the entry, and
    [get_entry_by_id] on the new id (without an owner id, or with the
    owner's) returns a tuple whose categories and tags are the list's items
    joined with a comma and a space when a list was given, and the text
    unchanged when text was given. *)
Theorem create_then_get_labels now username image_file a d fs
    (cats tgs : labels) :
  valid_create now username image_file a d fs →
  arg_categories a = labels_arg cats →
  arg_tags a = labels_arg tgs →
  ∃ d' fs' owner,
    insert_data numeric_of_text image_size now username image_file a d fs
    = (Saved, d', fs')
    ∧ get_user_by_username username d = Some owner
    ∧ ∀ user_id, user_id = None ∨ user_id = Some (User.id owner) →
        ∃ t, get_entry_by_id (next_id d) user_id d' = Some t
             ∧ streamlit_app.get_entry_field t "categories"
               = Ok (SText (serialized cats))
             ∧ streamlit_app.get_entry_field t "tags"
               = Ok (SText (serialized tgs)).
Proof.
  intros Hvalid Hc Hg.
  destruct (insert_data_succeeds now username image_file a d fs cats tgs
              Hvalid Hc Hg) as (d' & fs' & Hins).
  destruct Hvalid as ((owner & Howner & _) & _).
  exists d', fs', owner. split; [exact Hins|]. split; [exact Howner|].
  intros user_id Hor.
  apply insert_data_saved in Hins
    as (r & c & g & bs & bc & bg & -> & Hid & _ & Hu & _ & _ & _ & _
        & Hlc & Hbc & Hrc & Hlg & Hbg & Hrg).
  rewrite Howner in Hu. cbn in Hu.
  exists (select_tuple r). split.
  - apply (get_entry_by_id_new d r user_id (User.id owner)); assumption.
  - rewrite Hc, labels_as_text_arg in Hlc. injection Hlc as <-.
    rewrite Hg, labels_as_text_arg in Hlg. injection Hlg as <-.
    cbn in Hbc, Hbg. injection Hbc as <-. injection Hbg as <-.
    rewrite select_tuple_categories, select_tuple_tags, Hrc, Hrg.
    split; reflexivity.
Qed.

(** C10. After a successful [insert_data] the new row's [link_summary] is
    the empty string whatever the arguments, and its [image_caption] holds
    the [summary] argument as bound (the text itself when it is a string);
    [get_entry_by_id] returns them so.  A [caption] or [link_summary]
    keyword is swallowed by [**kwargs]: the call is the same without it. *)
Theorem insert_data_link_summary_empty now username image_file a d fs d' fs' :
  insert_data numeric_of_text image_size now username image_file a d fs
  = (Saved, d', fs') →
  (∃ r t b_summary,
     entries d' = (entries d ++ [r])%list
     ∧ get_entry_by_id (next_id d) None d' = Some t
     ∧ Entry.link_summary r = Some ""
     ∧ streamlit_app.get_entry_field t "link_summary" = Ok (SText "")
     ∧ bind (arg_summary a) = Ok b_summary
     ∧ Entry.image_caption r = to_text b_summary
     ∧ streamlit_app.get_entry_field t "image_caption"
       = Ok (of_text (to_text b_summary))
     ∧ ∀ s, arg_summary a = PStr s → Entry.image_caption r = Some s)
  ∧ ∀ kwargs,
      insert_data numeric_of_text image_size now username image_file
        (with_kwargs a kwargs) d fs
      = insert_data numeric_of_text image_size now username image_file a d fs.
Proof.
  intros Hins. split; [|reflexivity].
  apply insert_data_saved in Hins
    as (r & c & g & bs & bc & bg & -> & Hid & _ & Hu & Hls & _ & Hbs & Hic
        & _).
  exists r, (select_tuple r), bs. cbn [entries].
  split; [reflexivity|]. split.
  - destruct (get_user_by_username username d) as [u|].
    + apply (get_entry_by_id_new d r None (User.id u)); auto.
    + unfold get_entry_by_id. cbn [entries].
      rewrite find_snoc; [reflexivity| |].
      * intros y Hy. apply where_entry_other_id.
        apply next_id_fresh in Hy. lia.
      * unfold where_entry. cbn.
        rewrite bool_decide_eq_true_2 by exact Hid. reflexivity.
  - rewrite select_tuple_link_summary, select_tuple_image_caption, Hls, Hic.
    repeat split; try reflexivity; try assumption.
    intros s Hs. rewrite Hs in Hbs. injection Hbs as <-. reflexivity.
Qed.

End CreateRead.

(** User 7 saves an entry with a list of categories and tags as text, and
    reads both back. *)
Lemma create_then_get_labels_witness :
  valid_create noon "ann" None sunset_args two_users empty_disk
  ∧ ∃ t, get_entry_by_id 1 None
           (insert_data keep_text no_size noon "ann" None sunset_args
              two_users empty_disk).1.2 = Some t
         ∧ streamlit_app.get_entry_field t "categories"
           = Ok (SText "nature, outdoor")
         ∧ streamlit_app.get_entry_field t "tags" = Ok (SText "sky,red").
Proof.
  assert (valid_create noon "ann" None sunset_args two_users empty_disk) as Hv.
  { split; [eexists; split; [reflexivity|discriminate]|].
    repeat split; eexists; reflexivity. }
  split; [exact Hv|].
  destruct (create_then_get_labels keep_text no_size noon "ann" None
              sunset_args two_users empty_disk
              (LabelList ["nature"; "outdoor"]) (LabelText "sky,red")
              Hv eq_refl eq_refl) as (d' & fs' & owner & Hins & _ & Hget).
  rewrite Hins. apply (Hget None). left. reflexivity.
Defined.

(** The same call: the link summary read back is empty, and the caption is
    the summary passed. *)
Lemma insert_data_link_summary_empty_witness :
  ∃ t, get_entry_by_id 1 None
         (insert_data keep_text no_size noon "ann" None sunset_args
            two_users empty_disk).1.2 = Some t
       ∧ streamlit_app.get_entry_field t "link_summary" = Ok (SText "")
       ∧ streamlit_app.get_entry_field t "image_caption"
         = Ok (SText "A red sky over water").
Proof.
  destruct (insert_data_link_summary_empty keep_text no_size noon "ann" None
              sunset_args two_users empty_disk
              (insert_data keep_text no_size noon "ann" None sunset_args
                 two_users empty_disk).1.2
              empty_disk eq_refl)
    as [(r & t & b & _ & Hget & _ & Hls & Hb & _ & Hic & _) _].
  exists t. split; [exact Hget|]. split; [exact Hls|].
  rewrite Hic. injection Hb as <-. reflexivity.
Defined.

(** ** Update and delete *)

Section UpdateDelete.

Variable numeric_of_text : string → sqlval.

Lemma where_entry_targets entry_id user_id e :
  holds (where_entry entry_id user_id e) = true ↔ targets entry_id user_id e.
Proof.
  unfold where_entry, targets, owner_given, int_eq.
  destruct user_id as [u|]; simpl.
  - destruct (Z.eqb_spec u 0) as [->|Hu]; simpl.
    + destruct (bool_decide_reflect (Entry.id e = entry_id)) as [?|?]; simpl;
        naive_solver.
    + destruct (Entry.user_id e) as [x|]; simpl;
        [destruct (bool_decide_reflect (x = u)) as [?|?]|];
        destruct (bool_decide_reflect (Entry.id e = entry_id)) as [?|?]; simpl;
        naive_solver.
  - destruct (bool_decide_reflect (Entry.id e = entry_id)) as [?|?]; simpl;
      naive_solver.
Qed.

Lemma existsb_none {A} (f : A → bool) (l : list A) :
  (∀ x, x ∈ l → f x = false) → existsb f l = false.
Proof.
  induction l as [|x l IH]; intros H; [reflexivity|]. simpl.
  rewrite (H x) by left. apply IH. intros y Hy. apply H. right. exact Hy.
Qed.

Lemma find_all_false {A} (f : A → bool) (l : list A) :
  (∀ x, x ∈ l → f x = false) → List.find f l = None.
Proof.
  induction l as [|x l IH]; intros H; [reflexivity|]. simpl.
  rewrite (H x) by left. apply IH. intros y Hy. apply H. right. exact Hy.
Qed.

Lemma not_targets_where entry_id user_id (l : list entry) :
  (∀ e, e ∈ l → ¬ targets entry_id user_id e) →
  ∀ e, e ∈ l → holds (where_entry entry_id user_id e) = false.
Proof.
  intros H e He. apply not_true_is_false. rewrite where_entry_targets.
  apply H, He.
Qed.

Lemma update_entry_no_row now entry_id update_data user_id d :
  (∀ e, e ∈ entries d → ¬ targets entry_id user_id e) →
  update_entry numeric_of_text now entry_id update_data user_id d = (false, d).
Proof.
  intros H. unfold update_entry.
  rewrite existsb_none by (apply not_targets_where, H). reflexivity.
Qed.

Lemma filter_idemp {A} (P : A → Prop) `{∀ x, Decision (P x)} (l : list A) :
  filter P (filter P l) = filter P l.
Proof.
  induction l as [|x l IH]; [reflexivity|].
  rewrite (filter_cons P x l). destruct (decide (P x)) as [Hx|Hx].
  - rewrite filter_cons_True by exact Hx. f_equal. exact IH.
  - exact IH.
Qed.

Lemma bind_all_app l1 l2 :
  bind_all (l1 ++ l2)
  = match bind_all l1 with
    | Ok s1 => match bind_all l2 with
               | Ok s2 => Ok (s1 ++ s2)%list
               | Raise e => Raise e
               end
    | Raise e => Raise e
    end.
Proof.
  induction l1 as [|[f v] l1 IH]; simpl.
  - destruct (bind_all l2); reflexivity.
  - destruct (bind v) as [b|]; cbn; [|reflexivity].
    rewrite IH. destruct (bind_all l1); cbn; [|reflexivity].
    destruct (bind_all l2); reflexivity.
Qed.

Lemma assign_snoc sets f v e :
  assign numeric_of_text (sets ++ [(f, v)])%list e
  = set_column numeric_of_text f v (assign numeric_of_text sets e).
Proof. unfold assign. rewrite fold_left_app. reflexivity. Qed.

Lemma set_column_frozen f v e :
  frozen (set_column numeric_of_text f v e) = frozen e.
Proof.
  destruct e. unfold set_column.
  repeat (match goal with |- context [String.eqb ?a ?b] =>
            destruct (String.eqb a b) end; try reflexivity).
Qed.

Lemma assign_frozen sets e :
  frozen (assign numeric_of_text sets e) = frozen e.
Proof.
  revert e. induction sets as [|[f v] sets IH]; intros e; [reflexivity|].
  unfold assign in *. simpl. rewrite IH. apply set_column_frozen.
Qed.

Lemma set_updated_at s e :
  Entry.updated_at (set_column numeric_of_text "updated_at" (SText s) e)
  = Some s.
Proof. destruct e. reflexivity. Qed.


Ltac case_field f :=
  repeat match goal with
         | |- context [String.eqb f ?b] =>
             destruct (String.eqb_spec f b); [subst f|]
         end.

Lemma get_set_other f f' v e :
  f ≠ f' →
  get_column f (set_column numeric_of_text f' v e) = get_column f e.
Proof.
  intros Hne. destruct e. unfold set_column.
  case_field f'; unfold get_column;
    cbn [Entry.title Entry.description Entry.image_caption Entry.link
         Entry.link_summary Entry.categories Entry.tags Entry.notes
         Entry.is_favorite Entry.is_archived Entry.updated_at];
    repeat match goal with
           | |- context [String.eqb f ?b] => destruct (String.eqb_spec f b)
           end;
    first [reflexivity | congruence].
Qed.

Lemma get_set_same f v e :
  f ∈ allowed_fields →
  get_column f (set_column numeric_of_text f v e) = stored numeric_of_text f v.
Proof.
  intros Hf. destruct e. unfold allowed_fields in Hf.
  repeat (apply elem_of_cons in Hf as [->|Hf]; [reflexivity|]).
  inversion Hf.
Qed.

Lemma assign_other f sets e :
  f ∉ sets.*1 →
  get_column f (assign numeric_of_text sets e) = get_column f e.
Proof.
  revert e. induction sets as [|[f' v] sets IH]; intros e Hf; [reflexivity|].
  unfold assign in *. simpl. rewrite IH.
  - apply get_set_other. intros ->. apply Hf. left.
  - intros Hin. apply Hf. right. exact Hin.
Qed.

Lemma assign_same f v sets e :
  NoDup sets.*1 → (f, v) ∈ sets → f ∈ allowed_fields →
  get_column f (assign numeric_of_text sets e) = stored numeric_of_text f v.
Proof.
  revert e. induction sets as [|[f' v'] sets IH]; intros e Hnd Hin Hf.
  - inversion Hin.
  - apply NoDup_cons in Hnd as [Hnotin Hnd].
    apply elem_of_cons in Hin as [[= <- <-]|Hin].
    + change (get_column f (assign numeric_of_text sets
                              (set_column numeric_of_text f v e)) = stored numeric_of_text f v).
      rewrite assign_other by exact Hnotin. apply get_set_same, Hf.
    + apply (IH (set_column numeric_of_text f' v' e)); assumption.
Qed.


Lemma bind_all_keys l s : bind_all l = Ok s → s.*1 = l.*1.
Proof.
  revert s. induction l as [|[f v] l IH]; intros s; simpl.
  - intros [= <-]. reflexivity.
  - destruct (bind v) as [b|]; cbn; [|discriminate].
    destruct (bind_all l) as [s'|]; cbn; [|discriminate].
    intros [= <-]. cbn. f_equal. apply IH. reflexivity.
Qed.

Lemma bind_all_elem l s f v :
  bind_all l = Ok s → (f, v) ∈ l → ∃ b, bind v = Ok b ∧ (f, b) ∈ s.
Proof.
  revert s. induction l as [|[f' v'] l IH]; intros s; simpl.
  - intros _ Hin. inversion Hin.
  - destruct (bind v') as [b'|] eqn:Hb; cbn; [|discriminate].
    destruct (bind_all l) as [s'|]; cbn; [|discriminate].
    intros [= <-] Hin. apply elem_of_cons in Hin as [[= -> ->]|Hin].
    + exists b'. split; [exact Hb|left].
    + destruct (IH s' eq_refl Hin) as (b & Hbv & Hbin).
      exists b. split; [exact Hbv|right; exact Hbin].
Qed.

Lemma NoDup_filter_keys {V} (P : string * V → Prop) `{∀ x, Decision (P x)}
    (l : list (string * V)) :
  NoDup l.*1 → NoDup (filter P l).*1.
Proof.
  induction l as [|x l IH]; intros Hnd; [constructor|].
  cbn in Hnd. apply NoDup_cons in Hnd as [Hx Hnd].
  rewrite (filter_cons P x l). destruct (decide (P x)); [|apply IH, Hnd].
  cbn. apply NoDup_cons. split; [|apply IH, Hnd].
  intros Hin. apply Hx.
  apply list_elem_of_fmap in Hin as (y & Hy & Hin).
  apply list_elem_of_filter in Hin as [_ Hin].
  apply list_elem_of_fmap. exists y. split; assumption.
Qed.

(** C2. [update_entry] applies the keys of the whitelist only: a patch and
    the patch without its other keys give the same result.  A patch with no
    whitelisted key returns [False], and a call that returns [False] leaves
    the store as it was.  When the call returns [True], some whitelisted key
    was present; the rows of other ids are untouched; in the row of the id
    the columns outside the whitelist are unchanged, [updated_at] is the
    current time, a whitelisted column the patch does not name is unchanged,
    and a whitelisted key of the patch holds its value as bound. *)
Theorem update_entry_whitelist now entry_id update_data user_id d :
  let updates := filter (λ fv, fv.1 ∈ allowed_fields) update_data in
  let r := update_entry numeric_of_text now entry_id update_data user_id d in
  r = update_entry numeric_of_text now entry_id updates user_id d
  ∧ (updates = [] → r = (false, d))
  ∧ (r.1 = false → r.2 = d)
  ∧ (r.1 = true →
     updates ≠ []
     ∧ users r.2 = users d
     ∧ entries_seq r.2 = entries_seq d
     ∧ Forall2
         (λ e e',
            frozen e' = frozen e
            ∧ if bool_decide (Entry.id e = entry_id) then
                Entry.updated_at e' = Some (now_isoformat now)
                ∧ (∀ field, field ∉ updates.*1 → field ≠ "updated_at" →
                     get_column field e' = get_column field e)
                ∧ (NoDup update_data.*1 →
                   ∀ field value, (field, value) ∈ updates →
                     ∃ b, bind value = Ok b
                          ∧ get_column field e' = stored numeric_of_text field b)
              else e' = e)
         (entries d) (entries r.2)).
Proof.
  intros updates r. subst r updates. unfold update_entry.
  rewrite filter_idemp.
  set (updates := filter (λ fv : string * pyval, fv.1 ∈ allowed_fields)
                         update_data).
  split; [reflexivity|].
  destruct (negb (existsb _ (entries d))).
  { repeat split; try reflexivity; discriminate. }
  destruct updates as [|x xs] eqn:Hupd.
  { repeat split; try reflexivity; discriminate. }
  rewrite <- Hupd. rewrite bind_all_app.
  destruct (bind_all updates) as [su|] eqn:Hsu.
  2:{ repeat split; try reflexivity; discriminate. }
  cbn. split; [rewrite Hupd; discriminate|]. split; [discriminate|].
  intros _. split; [rewrite Hupd; discriminate|].
  split; [reflexivity|]. split; [reflexivity|].
  apply Forall2_fmap_r, Forall_Forall2_diag, Forall_forall. intros e _.
  unfold compose. cbv beta.
  repeat case_bool_decide; try contradiction; [|split; reflexivity].
  rewrite assign_snoc. split; [|split; [|split]].
  - rewrite set_column_frozen. apply assign_frozen.
  - apply set_updated_at.
  - intros field Hnot Hne. rewrite get_set_other by exact Hne.
    apply assign_other. rewrite (bind_all_keys _ _ Hsu). exact Hnot.
  - intros Hnd field value Hin.
    assert (field ∈ allowed_fields) as Hallowed.
    { unfold updates in Hin. apply list_elem_of_filter in Hin as [Hal _].
      exact Hal. }
    destruct (bind_all_elem _ _ _ _ Hsu Hin) as (b & Hb & Hbin).
    exists b. split; [exact Hb|].
    rewrite get_set_other.
    + apply assign_same; [|exact Hbin|exact Hallowed].
      rewrite (bind_all_keys _ _ Hsu). apply NoDup_filter_keys, Hnd.
    + intros ->. unfold allowed_fields in Hallowed.
      repeat (apply elem_of_cons in Hallowed as [[=]|Hallowed]).
      inversion Hallowed.
Qed.


(** X22. For an owner id that the guard [if user_id:] takes as given, any
    id other than 0: when no entry of the id belongs to that owner,
    [update_entry] returns [False] and the store, [updated_at] included, is
    unchanged; the outcome is the one of an id that no entry has. *)
Theorem update_entry_wrong_owner now entry_id update_data u d :
  u ≠ 0 →
  (∀ e, e ∈ entries d → Entry.id e = entry_id → Entry.user_id e ≠ Some u) →
  update_entry numeric_of_text now entry_id update_data (Some u) d = (false, d)
  ∧ ∀ missing_id,
      (∀ e, e ∈ entries d → Entry.id e ≠ missing_id) →
      update_entry numeric_of_text now missing_id update_data (Some u) d
      = update_entry numeric_of_text now entry_id update_data (Some u) d.
Proof.
  intros Hu Hnot.
  assert (update_entry numeric_of_text now entry_id update_data (Some u) d
          = (false, d)) as Hres.
  { apply update_entry_no_row. intros e He [Hid Hown].
    apply (Hnot e He Hid). apply (Hown u); [reflexivity|exact Hu]. }
  split; [exact Hres|].
  intros missing_id Hmiss. rewrite Hres.
  apply update_entry_no_row. intros e He [Hid _]. apply (Hmiss e He Hid).
Qed.

(** X23. When no entry has the id, or none of the id belongs to the owner
    id given (one that the guard [if user_id:] takes as given, any id other
    than 0), [delete_entry] returns [False] and changes neither the store
    nor the file system.  When there is such an entry it returns [True] on
    every file system, so also on one where removing the file raises: the
    addressed rows are gone, and the file system is either unchanged or the
    result of one successful removal. *)
Theorem delete_entry_outcome entry_id user_id d fs :
  ((∀ e, e ∈ entries d → ¬ targets entry_id user_id e) →
   delete_entry entry_id user_id d fs = (false, d, fs))
  ∧ ((∃ e, e ∈ entries d ∧ targets entry_id user_id e) →
     ∃ d' fs',
       delete_entry entry_id user_id d fs = (true, d', fs')
       ∧ users d' = users d
       ∧ (∀ e, e ∈ entries d' ↔ e ∈ entries d ∧ ¬ targets entry_id user_id e)
       ∧ (fs' = fs ∨ ∃ p, os_remove p fs = Ok fs')).
Proof.
  unfold delete_entry. split.
  - intros Hnone. rewrite find_all_false by (apply not_targets_where, Hnone).
    reflexivity.
  - intros (e & He & Ht).
    destruct (List.find _ (entries d)) as [entry|] eqn:Hfind.
    + eexists _, _. split; [reflexivity|]. split; [reflexivity|]. split.
      * intros x. cbn [entries]. rewrite list_elem_of_filter.
        rewrite <- where_entry_targets.
        destruct (holds (where_entry entry_id user_id x)); simpl;
          intuition (discriminate || auto).
      * destruct (Entry.file_path entry) as [p|]; [|left; reflexivity].
        destruct (truthy (PStr p) && path_exists p fs);
          [|left; reflexivity].
        destruct (os_remove p fs) as [fs'|] eqn:Hrm;
          [right; exists p; exact Hrm|left; reflexivity].
    + exfalso. apply where_entry_targets in Ht.
      rewrite (List.find_none _ _ Hfind e) in Ht; [discriminate|].
      apply list_elem_of_In. exact He.
Qed.

End UpdateDelete.

(** C3. The code at the owner id 0: the guard [if user_id:] takes the id as
    not given and skips the check of the owner.  Entry 5 is not owned by 0,
    and [update_entry] with the owner id 0 changes it and returns [True]. *)
Lemma update_entry_owner_zero_updates :
  (∀ e, e ∈ entries two_entries → Entry.id e = 5 → Entry.user_id e ≠ Some 0)
  ∧ (update_entry keep_text noon 5 [("is_favorite", PBool true)] (Some 0)
       two_entries).1 = true
  ∧ (update_entry keep_text noon 5 [("is_favorite", PBool true)] (Some 0)
       two_entries).2 ≠ two_entries.
Proof.
  split; [|split].
  - intros e He Hid.
    apply elem_of_cons in He as [->|He]; [discriminate|].
    apply elem_of_cons in He as [->|He]; [discriminate|]. inversion He.
  - vm_compute. reflexivity.
  - intros Heq.
    apply (f_equal (λ d, Entry.is_favorite <$> head (entries d))) in Heq.
    vm_compute in Heq. discriminate.
Qed.


(** User 8 cannot update entry 5, which user 7 owns. *)
Lemma update_entry_wrong_owner_witness :
  8 ≠ 0
  ∧ update_entry keep_text noon 5 [("is_favorite", PBool true)] (Some 8)
      two_entries = (false, two_entries).
Proof.
  split; [discriminate|].
  refine (proj1 (update_entry_wrong_owner keep_text noon 5
                   [("is_favorite", PBool true)] 8 two_entries _ _));
    [discriminate|].
  intros e He Hid.
  apply elem_of_cons in He as [->|He]; [discriminate|].
  apply elem_of_cons in He as [->|He]; [discriminate|]. inversion He.
Defined.

(** C4. The code at the owner id 0: the guard [if user_id:] takes the id as
    not given and drops the owner from both statements.  Entry 5 is not
    owned by 0, and [delete_entry] with the owner id 0 returns [True],
    removes its row and removes its file. *)
Lemma delete_entry_owner_zero_deletes :
  (∀ e, e ∈ entries two_entries → Entry.id e = 5 → Entry.user_id e ≠ Some 0)
  ∧ (delete_entry 5 (Some 0) two_entries one_file).1.1 = true
  ∧ entries (delete_entry 5 (Some 0) two_entries one_file).1.2 = [entry_6]
  ∧ files (delete_entry 5 (Some 0) two_entries one_file).2
      !! "uploads/7_20240101_090000_sky.jpg" = None
  ∧ files one_file !! "uploads/7_20240101_090000_sky.jpg" = Some [].
Proof.
  split; [|repeat split; vm_compute; reflexivity].
  intros e He Hid.
  apply elem_of_cons in He as [->|He]; [discriminate|].
  apply elem_of_cons in He as [->|He]; [discriminate|]. inversion He.
Qed.

(** Removing the file raises, and the delete still returns [True]. *)
Example delete_entry_file_kept :
  os_remove "uploads/7_20240101_090000_sky.jpg" one_file_denied = Raise OSError
  ∧ delete_entry 5 (Some 7) two_entries one_file_denied
    = (true,
       {| users := users two_entries; entries := [entry_6];
          entries_seq := 6 |},
       one_file_denied).
Proof. split; vm_compute; reflexivity. Qed.

(** An id that no entry has, and an id of another owner's entry. *)
Example delete_entry_not_found :
  delete_entry 9 None two_entries one_file = (false, two_entries, one_file)
  ∧ delete_entry 5 (Some 8) two_entries one_file
    = (false, two_entries, one_file).
Proof. split; vm_compute; reflexivity. Qed.

(** A patch with a whitelisted key and two others: the others are dropped,
    the title is set and [updated_at] is the current time; with the others
    alone nothing happens. *)
Example update_entry_mixed_patch :
  update_entry keep_text noon 5
    [("id", PInt 9); ("title", PStr "Dusk"); ("user_id", PInt 8)] None
    two_entries
  = (true,
     {| users := users two_entries;
        entries :=
          [set_column keep_text "updated_at" (SText (now_isoformat noon))
             (set_column keep_text "title" (SText "Dusk") entry_5);
           entry_6];
        entries_seq := 6 |})
  ∧ update_entry keep_text noon 5 [("id", PInt 9); ("user_id", PInt 8)] None
      two_entries = (false, two_entries).
Proof. split; vm_compute; reflexivity. Qed.

(** ** Search *)

Lemma holds_sql_and a b : holds (sql_and a b) = holds a && holds b.
Proof. destruct a as [[]|], b as [[]|]; reflexivity. Qed.

Lemma holds_sql_or a b : holds (sql_or a b) = holds a || holds b.
Proof. destruct a as [[]|], b as [[]|]; reflexivity. Qed.

Lemma holds_text_eq (c : option string) (s : string) :
  holds (text_eq c s) = true ↔ c = Some s.
Proof.
  destruct c as [x|]; simpl; [|split; discriminate].
  case_bool_decide; split; congruence.
Qed.

Lemma truthy_str_ne (s : string) : s ≠ "" → truthy (PStr s) = true.
Proof.
  intros Hs. unfold truthy. destruct (String.eqb_spec s "");
    [contradiction|reflexivity].
Qed.

(** *** The sorter *)

Global Instance uploaded_ge_trans : Transitive uploaded_ge.
Proof.
  intros a b c. unfold uploaded_ge.
  destruct (Entry.uploaded_at a), (Entry.uploaded_at b),
    (Entry.uploaded_at c); try tauto.
  intros H1 H2. etrans; eassumption.
Qed.

Global Instance uploaded_ge_total : Total uploaded_ge.
Proof.
  intros a b. unfold uploaded_ge.
  destruct (Entry.uploaded_at a) as [x|], (Entry.uploaded_at b) as [y|];
    try tauto.
  destruct (total String.le x y); tauto.
Qed.

Lemma sort_in_Permutation (x : entry) (l : list entry) :
  sort_in x l ≡ₚ x :: l.
Proof.
  induction l as [|y l IH]; [reflexivity|].
  cbn. destruct (decide (uploaded_ge x y)); [reflexivity|].
  rewrite IH. apply Permutation_swap.
Qed.

Lemma order_by_Permutation (rows : list entry) :
  order_by_uploaded_at_desc rows ≡ₚ rows.
Proof.
  induction rows as [|x rows IH]; [reflexivity|].
  cbn. rewrite sort_in_Permutation. f_equiv. exact IH.
Qed.

Lemma sort_in_sorted (x : entry) (l : list entry) :
  StronglySorted uploaded_ge l → StronglySorted uploaded_ge (sort_in x l).
Proof.
  induction l as [|y l IH]; intros Hs.
  - repeat constructor.
  - apply StronglySorted_inv in Hs as [Hs Hy]. cbn.
    destruct (decide (uploaded_ge x y)) as [Hxy|Hxy].
    + constructor; [constructor; assumption|].
      constructor; [exact Hxy|].
      eapply Forall_impl; [exact Hy|].
      intros z Hz. etrans; eassumption.
    + constructor; [apply IH, Hs|].
      rewrite sort_in_Permutation. constructor; [|exact Hy].
      destruct (total uploaded_ge x y); [contradiction|assumption].
Qed.

Lemma order_by_sorted (rows : list entry) :
  StronglySorted uploaded_ge (order_by_uploaded_at_desc rows).
Proof.
  induction rows as [|x rows IH]; [constructor|].
  cbn. apply sort_in_sorted, IH.
Qed.

(** *** Scans and conjunctions *)

Lemma scan_ok (p : entry → result exn bool) (f : entry → bool)
    (l : list entry) :
  (∀ e, e ∈ l → p e = Ok (f e)) → scan p l = Ok (filter (λ e, f e) l).
Proof.
  induction l as [|x l IH]; intros Hp; [reflexivity|].
  cbn [scan]. rewrite (Hp x) by left.
  rewrite IH by (intros e He; apply Hp; right; exact He).
  cbn [mbind result_bind]. rewrite filter_cons.
  destruct (f x); reflexivity.
Qed.

Lemma scan_elem (p : entry → result exn bool) (l rows : list entry) :
  scan p l = Ok rows →
  ∀ e, e ∈ rows ↔ e ∈ l ∧ p e = Ok true.
Proof.
  revert rows. induction l as [|x l IH]; intros rows Hs e.
  - injection Hs as <-. split; [intros H; inversion H|intros [H _]; inversion H].
  - cbn [scan] in Hs. destruct (p x) as [keep|] eqn:Hx; [|discriminate].
    destruct (scan p l) as [kept|] eqn:Hl; [|discriminate].
    cbn in Hs. injection Hs as <-. specialize (IH kept eq_refl e).
    destruct keep.
    + rewrite !elem_of_cons, IH. split.
      * intros [->|[H1 H2]]; auto.
      * intros [[->|H1] H2]; auto.
    + rewrite elem_of_cons, IH. split.
      * intros [H1 H2]. auto.
      * intros [[->|H1] H2]; [congruence|auto].
Qed.

Lemma scan_total (p : entry → result exn bool) (l : list entry) :
  (∀ e, e ∈ l → ∃ b, p e = Ok b) → ∃ rows, scan p l = Ok rows.
Proof.
  induction l as [|x l IH]; intros Hp; [eexists; reflexivity|].
  destruct (Hp x) as [b Hb]; [left|].
  destruct IH as [rows Hrows]; [intros e He; apply Hp; right; exact He|].
  cbn [scan]. rewrite Hb, Hrows. eexists. reflexivity.
Qed.

Lemma scan_none (p : entry → result exn bool) (l : list entry) :
  (∀ e, e ∈ l → p e ≠ Ok true) →
  scan p l = Ok [] ∨ ∃ x, scan p l = Raise x.
Proof.
  induction l as [|x l IH]; intros Hp; [left; reflexivity|].
  cbn [scan]. destruct (p x) as [[]|err] eqn:Hx.
  - exfalso. apply (Hp x); [left|exact Hx].
  - destruct IH as [-> | [err ->]];
      [intros e He; apply Hp; right; exact He| |].
    + left. reflexivity.
    + right. eexists. reflexivity.
  - right. eexists. reflexivity.
Qed.

Lemma sql_all_app (l1 l2 : list (result exn (option bool))) :
  sql_all (l1 ++ l2)
  = (b ← sql_all l1; if (b : bool) then sql_all l2 else Ok false).
Proof.
  induction l1 as [|t l1 IH]; [reflexivity|].
  cbn [app sql_all]. destruct t as [v|err]; [|reflexivity].
  cbn. destruct (holds v); [exact IH|reflexivity].
Qed.

Lemma sql_all_app_true (l1 l2 : list (result exn (option bool))) :
  sql_all (l1 ++ l2) = Ok true ↔ sql_all l1 = Ok true ∧ sql_all l2 = Ok true.
Proof.
  rewrite sql_all_app. destruct (sql_all l1) as [[]|err]; cbn;
    split; try tauto; try (intros [H _]; discriminate); discriminate.
Qed.

Lemma sql_all_one (t : result exn (option bool)) :
  sql_all [t] = Ok true ↔ ∃ v, t = Ok v ∧ holds v = true.
Proof.
  cbn. destruct t as [v|err]; cbn.
  - destruct (holds v) eqn:Hv; split.
    + intros _. eauto.
    + reflexivity.
    + discriminate.
    + intros (w & [= <-] & H). congruence.
  - split; [discriminate|]. intros (w & H & _). discriminate.
Qed.

Lemma sql_all_given (given : bool) (t : result exn (option bool)) :
  sql_all (if given then [t] else []) = Ok true
  ↔ (given = true → ∃ v, t = Ok v ∧ holds v = true).
Proof.
  destruct given.
  - rewrite sql_all_one. split; [auto|]. intros H. apply H. reflexivity.
  - split; [discriminate|reflexivity].
Qed.

Lemma sql_all_given_ok (given : bool) (v : option bool) :
  sql_all (if given then [Ok v] else []) = Ok (negb given || holds v).
Proof. destruct given; [cbn; destruct (holds v)|]; reflexivity. Qed.

Lemma sql_any_ok (vs : list (option bool)) :
  ∃ v, sql_any (Ok <$> vs) = Ok v ∧ holds v = existsb holds vs.
Proof.
  induction vs as [|a vs (w & Hw & Hh)].
  - eexists. split; reflexivity.
  - cbn [fmap list_fmap sql_any]. cbn [mbind result_bind].
    destruct (holds a) eqn:Ha.
    + eexists. split; [reflexivity|]. cbn. rewrite Ha. reflexivity.
    + rewrite Hw. cbn [mbind result_bind]. eexists. split; [reflexivity|].
      cbn. rewrite holds_sql_or, Ha, Hh. reflexivity.
Qed.

(** *** LIKE *)

Lemma like_match_percent (p s : list ascii) :
  like_match ("%"%char :: p) s
  = like_match p s
    || match s with
       | [] => false
       | _ :: s' => like_match ("%"%char :: p) s'
       end.
Proof. destruct s; reflexivity. Qed.

Lemma like_match_cons (c : ascii) (p s : list ascii) :
  c ≠ "%"%char →
  like_match (c :: p) s
  = match s with
    | [] => false
    | d :: s' => (Ascii.eqb c "_" || like_char_eq c d) && like_match p s'
    end.
Proof.
  intros Hc. simpl. destruct (Ascii.eqb_spec c "%"); [contradiction|].
  reflexivity.
Qed.

Lemma like_match_skip (p pre s : list ascii) :
  like_match p s = true → like_match ("%"%char :: p) (pre ++ s)%list = true.
Proof.
  intros H. induction pre as [|c pre IH]; rewrite like_match_percent.
  - simpl. rewrite H. reflexivity.
  - simpl ((_ :: _) ++ _)%list. cbv iota beta. rewrite IH. apply orb_true_r.
Qed.

Lemma like_match_rest (s : list ascii) : like_match ["%"%char] s = true.
Proof.
  induction s as [|c s IH]; rewrite like_match_percent; [reflexivity|].
  rewrite IH. apply orb_true_r.
Qed.

Lemma like_match_folded (q m p t : list ascii) :
  like_fold <$> q = like_fold <$> m →
  like_match p t = true →
  like_match (q ++ p)%list (m ++ t)%list = true.
Proof.
  revert m. induction q as [|c q IH]; intros [|d m] Hf Hp;
    try discriminate; [exact Hp|].
  injection Hf as Hc Hf. specialize (IH m Hf Hp).
  simpl ((_ :: _) ++ _)%list.
  destruct (Ascii.eqb_spec c "%") as [->|Hne].
  - rewrite like_match_percent.
    pose proof (like_match_skip _ [] _ IH
                : like_match ("%"%char :: q ++ p)%list (m ++ t)%list = true)
      as Hskip.
    rewrite Hskip. apply orb_true_r.
  - rewrite like_match_cons by exact Hne. rewrite IH.
    unfold like_char_eq. rewrite Hc, Ascii.eqb_refl. rewrite orb_true_r.
    reflexivity.
Qed.

Lemma like_match_percent_inv (p s : list ascii) :
  like_match ("%"%char :: p) s = true →
  ∃ pre t, s = (pre ++ t)%list ∧ like_match p t = true.
Proof.
  induction s as [|c s IH]; rewrite like_match_percent; intros H.
  - rewrite orb_false_r in H. exists [], []. auto.
  - apply orb_true_iff in H as [H|H].
    + exists [], (c :: s). auto.
    + destruct (IH H) as (pre & t & -> & Ht). exists (c :: pre), t. auto.
Qed.

Lemma like_match_plain_inv (q t : list ascii) :
  (∀ c, c ∈ q → c ≠ "%"%char ∧ c ≠ "_"%char) →
  like_match (q ++ ["%"%char])%list t = true →
  ∃ m post, t = (m ++ post)%list ∧ like_fold <$> m = like_fold <$> q.
Proof.
  revert t. induction q as [|c q IH]; intros t Hq H.
  - exists [], t. auto.
  - destruct (Hq c) as [Hp Hu]; [left|].
    simpl ((_ :: _) ++ _)%list in H. rewrite like_match_cons in H by exact Hp.
    destruct t as [|d t]; [discriminate|].
    apply andb_true_iff in H as [Hcd H].
    destruct (Ascii.eqb_spec c "_"); [contradiction|]. simpl in Hcd.
    destruct (IH t) as (m & post & -> & Hm); [|exact H|].
    { intros x Hx. apply Hq. right. exact Hx. }
    exists (d :: m), post. split; [reflexivity|].
    cbn. f_equal; [|exact Hm].
    unfold like_char_eq in Hcd. apply Ascii.eqb_eq in Hcd. auto.
Qed.

Lemma list_ascii_app (a b : string) :
  list_ascii_of_string (a ++ b)
  = (list_ascii_of_string a ++ list_ascii_of_string b)%list.
Proof.
  induction a as [|c a IH]; [reflexivity|].
  change (String c a ++ b) with (String c (a ++ b)).
  cbn. f_equal. exact IH.
Qed.

Lemma string_of_list_app (l1 l2 : list ascii) :
  string_of_list_ascii (l1 ++ l2)%list
  = string_of_list_ascii l1 ++ string_of_list_ascii l2.
Proof.
  induction l1 as [|c l IH]; [reflexivity|].
  cbn. rewrite IH. reflexivity.
Qed.

Lemma list_ascii_upper (s : string) :
  list_ascii_of_string (ascii_upper s) = like_fold <$> list_ascii_of_string s.
Proof. induction s as [|c s IH]; [reflexivity|]. cbn. f_equal. exact IH. Qed.

Lemma ascii_upper_of_list (l : list ascii) :
  ascii_upper (string_of_list_ascii l) = string_of_list_ascii (like_fold <$> l).
Proof. induction l as [|c l IH]; [reflexivity|]. cbn. f_equal. exact IH. Qed.

Lemma like_fold_idemp (c : ascii) : like_fold (like_fold c) = like_fold c.
Proof. destruct c as [[] [] [] [] [] [] [] []]; reflexivity. Qed.

Lemma like_fold_lower (c : ascii) : like_fold (ascii_lower_char c) = like_fold c.
Proof. destruct c as [[] [] [] [] [] [] [] []]; reflexivity. Qed.

Lemma ascii_upper_idemp (s : string) : ascii_upper (ascii_upper s) = ascii_upper s.
Proof.
  induction s as [|c s IH]; [reflexivity|].
  cbn. rewrite like_fold_idemp, IH. reflexivity.
Qed.

Lemma ascii_upper_lower (s : string) : ascii_upper (ascii_lower s) = ascii_upper s.
Proof.
  induction s as [|c s IH]; [reflexivity|].
  cbn. rewrite like_fold_lower, IH. reflexivity.
Qed.


Lemma c_string_app (a b : string) :
  nul_free a → c_string (a ++ b) = a ++ c_string b.
Proof.
  unfold nul_free. induction a as [|c a IH]; intros Ha; [reflexivity|].
  change (String c a ++ b) with (String c (a ++ b)).
  change (String c a ++ c_string b) with (String c (a ++ c_string b)).
  cbn [c_string] in *. destruct (Ascii.eqb c zero); [discriminate|].
  injection Ha as Ha. rewrite IH by exact Ha. reflexivity.
Qed.

Lemma nul_free_app (a b : string) :
  nul_free (a ++ b) ↔ nul_free a ∧ nul_free b.
Proof.
  unfold nul_free. induction a as [|c a IH].
  - change ("" ++ b) with b. split; [auto|tauto].
  - change (String c a ++ b) with (String c (a ++ b)).
    cbn [c_string]. destruct (Ascii.eqb c zero).
    + split; [discriminate|]. intros [H _]. discriminate.
    + split.
      * intros [= H]. apply IH in H as [Ha Hb]. rewrite Ha. auto.
      * intros [[= Ha] Hb]. f_equal. apply IH. auto.
Qed.

Lemma c_string_idemp (s : string) : nul_free (c_string s).
Proof.
  unfold nul_free. induction s as [|c s IH]; [reflexivity|].
  cbn [c_string]. destruct (Ascii.eqb c zero) eqn:Hc; [reflexivity|].
  cbn [c_string]. rewrite Hc, IH. reflexivity.
Qed.

Lemma like_fold_zero (c : ascii) :
  Ascii.eqb (like_fold c) zero = Ascii.eqb c zero.
Proof. destruct c as [[] [] [] [] [] [] [] []]; reflexivity. Qed.

Lemma ascii_lower_char_zero (c : ascii) :
  Ascii.eqb (ascii_lower_char c) zero = Ascii.eqb c zero.
Proof. destruct c as [[] [] [] [] [] [] [] []]; reflexivity. Qed.

Lemma nul_free_upper (s : string) : nul_free s → nul_free (ascii_upper s).
Proof.
  unfold nul_free. induction s as [|c s IH]; [reflexivity|].
  cbn [c_string ascii_upper]. rewrite like_fold_zero.
  destruct (Ascii.eqb c zero); [discriminate|].
  intros [= H]. rewrite IH by exact H. reflexivity.
Qed.

Lemma nul_free_lower (s : string) : nul_free s → nul_free (ascii_lower s).
Proof.
  unfold nul_free. induction s as [|c s IH]; [reflexivity|].
  cbn [c_string ascii_lower]. rewrite ascii_lower_char_zero.
  destruct (Ascii.eqb c zero); [discriminate|].
  intros [= H]. rewrite IH by exact H. reflexivity.
Qed.

Lemma like_pattern_chars (q : string) :
  list_ascii_of_string ("%" ++ q ++ "%")
  = "%"%char :: (list_ascii_of_string q ++ ["%"%char])%list.
Proof.
  change ("%" ++ q ++ "%") with (String "%" (q ++ "%")).
  cbn. f_equal. apply list_ascii_app.
Qed.

(** For a query without NUL the whole pattern is read. *)
Lemma like_query (q s : string) :
  nul_free q →
  like ("%" ++ q ++ "%") s
  = like_match ("%"%char :: (list_ascii_of_string q ++ ["%"%char])%list)
               (list_ascii_of_string (c_string s)).
Proof.
  intros Hq. unfold like.
  assert (c_string ("%" ++ q ++ "%") = "%" ++ q ++ "%") as ->.
  { apply nul_free_app. split; [reflexivity|].
    apply nul_free_app. split; [exact Hq|reflexivity]. }
  rewrite like_pattern_chars. reflexivity.
Qed.

(** A text in which the query occurs before the first NUL, up to the case
    of ASCII letters, is matched, wildcards or not. *)
Lemma like_occurs (q s : string) :
  nul_free q → occurs_folded q (c_string s) →
  like ("%" ++ q ++ "%") s = true.
Proof.
  intros Hq (pre & m & post & Hs & Hm). rewrite like_query by exact Hq.
  rewrite Hs, !list_ascii_app.
  apply like_match_skip, like_match_folded; [|apply like_match_rest].
  rewrite <- !list_ascii_upper, Hm. reflexivity.
Qed.

(** Without wildcards in the query, nothing else is matched. *)
Lemma like_occurs_inv (q s : string) :
  nul_free q → wildcard_free q → like ("%" ++ q ++ "%") s = true →
  occurs_folded q (c_string s).
Proof.
  intros Hn Hq H. rewrite like_query in H by exact Hn.
  apply like_match_percent_inv in H as (pre & t & Hs & H).
  apply like_match_plain_inv in H as (m & post & -> & Hm); [|exact Hq].
  exists (string_of_list_ascii pre), (string_of_list_ascii m),
         (string_of_list_ascii post).
  split.
  - rewrite <- !string_of_list_app, <- Hs.
    symmetry. apply string_of_list_ascii_of_string.
  - rewrite ascii_upper_of_list, Hm, <- ascii_upper_of_list.
    rewrite string_of_list_ascii_of_string. reflexivity.
Qed.

Lemma text_like_fits (c : option string) (q : string) :
  pattern_fits q = true →
  text_like c ("%" ++ q ++ "%") = Ok (like ("%" ++ q ++ "%") <$> c).
Proof.
  unfold pattern_fits, text_like. intros H.
  destruct (Z.ltb_spec max_like_pattern_length
              (utf8_length ("%" ++ q ++ "%"))); [lia|reflexivity].
Qed.

Lemma text_like_long (c : option string) (q : string) :
  pattern_fits q = false →
  text_like c ("%" ++ q ++ "%") = Raise OperationalError.
Proof.
  unfold pattern_fits, text_like. intros H.
  destruct (Z.ltb_spec max_like_pattern_length
              (utf8_length ("%" ++ q ++ "%"))); [reflexivity|lia].
Qed.

Lemma text_like_Ok (c : option string) (q : string) (v : option bool) :
  text_like c ("%" ++ q ++ "%") = Ok v → pattern_fits q = true.
Proof.
  destruct (pattern_fits q) eqn:Hf; [reflexivity|].
  rewrite text_like_long by exact Hf. discriminate.
Qed.

Lemma holds_like (c : option string) (q : string) :
  holds (like ("%" ++ q ++ "%") <$> c) = column_like c q.
Proof.
  destruct c as [s|]; cbn; [destruct (like _ s)|]; reflexivity.
Qed.

(** *** The WHERE clause of a search *)

(** The group of the six columns: their pattern is the same, so it raises
    at the first column or not at all. *)
Lemma sql_any_fits (q : string) (e : entry) :
  pattern_fits q = true →
  ∃ v, sql_any ((λ c, text_like c ("%" ++ q ++ "%")) <$> searched_fields e)
       = Ok v
       ∧ holds v = pattern_matches q e.
Proof.
  intros Hf.
  destruct (sql_any_ok ((λ c : option string, like ("%" ++ q ++ "%") <$> c)
                          <$> searched_fields e)) as (v & Hv & Hh).
  exists v. split.
  - rewrite <- Hv. f_equal. rewrite <- list_fmap_compose.
    apply list_fmap_ext. intros i c _. cbn. apply text_like_fits, Hf.
  - rewrite Hh. unfold pattern_matches.
    unfold searched_fields. cbn [fmap list_fmap existsb].
    rewrite !holds_like. reflexivity.
Qed.

Lemma sql_any_Ok (q : string) (e : entry) (v : option bool) :
  sql_any ((λ c, text_like c ("%" ++ q ++ "%")) <$> searched_fields e) = Ok v →
  pattern_fits q = true.
Proof.
  unfold searched_fields. cbn [fmap list_fmap sql_any]. intros H.
  destruct (text_like (Entry.title e) ("%" ++ q ++ "%")) as [w|] eqn:Hw;
    [|discriminate].
  eapply text_like_Ok. exact Hw.
Qed.

Lemma search_terms_eq username search_query category tag favorites_only
    exclude_archived e :
  let search_pattern := "%" ++ search_query ++ "%" in
  let category_pattern := "%" ++ category ++ "%" in
  let tag_pattern := "%" ++ tag ++ "%" in
  search_terms username search_query category tag favorites_only
    exclude_archived e
  = ([Ok (text_eq (Entry.username e) username)]
     ++ (if truthy (PStr search_query)
         then [sql_any ((λ c, text_like c search_pattern)
                          <$> searched_fields e)]
         else [])
     ++ (if truthy (PStr category)
         then [text_like (Entry.categories e) category_pattern]
         else [])
     ++ (if truthy (PStr tag)
         then [text_like (Entry.tags e) tag_pattern]
         else [])
     ++ (if favorites_only
         then [Ok (numeric_eq (Entry.is_favorite e) 1)]
         else [])
     ++ (if exclude_archived
         then [Ok (sql_or (numeric_eq (Entry.is_archived e) 0)
                          (is_null (Entry.is_archived e)))]
         else []))%list.
Proof. reflexivity. Qed.

(** When no pattern is too long the clause does not raise, and keeps the
    rows that pass the filters. *)
Lemma search_where_fits username search_query category tag favorites_only
    exclude_archived e :
  filter_fits search_query = true →
  filter_fits category = true →
  filter_fits tag = true →
  search_where username search_query category tag favorites_only
    exclude_archived e
  = Ok (passes_filters username search_query category tag favorites_only
          exclude_archived e).
Proof.
  unfold filter_fits, search_where, passes_filters.
  intros Hq Hc Ht. rewrite search_terms_eq. cbv zeta. rewrite !sql_all_app.
  assert (sql_all (if truthy (PStr search_query)
                   then [sql_any ((λ c, text_like c
                                          ("%" ++ search_query ++ "%"))
                                    <$> searched_fields e)]
                   else [])
          = Ok (negb (truthy (PStr search_query))
                || pattern_matches search_query e)) as ->.
  { destruct (truthy (PStr search_query)); [|reflexivity].
    destruct (sql_any_fits search_query e Hq) as (v & -> & <-).
    apply (sql_all_given_ok true). }
  assert (sql_all (if truthy (PStr category)
                   then [text_like (Entry.categories e)
                           ("%" ++ category ++ "%")]
                   else [])
          = Ok (negb (truthy (PStr category))
                || column_like (Entry.categories e) category)) as ->.
  { destruct (truthy (PStr category)); [|reflexivity].
    rewrite text_like_fits by exact Hc. rewrite <- holds_like.
    apply (sql_all_given_ok true). }
  assert (sql_all (if truthy (PStr tag)
                   then [text_like (Entry.tags e) ("%" ++ tag ++ "%")]
                   else [])
          = Ok (negb (truthy (PStr tag))
                || column_like (Entry.tags e) tag)) as ->.
  { destruct (truthy (PStr tag)); [|reflexivity].
    rewrite text_like_fits by exact Ht. rewrite <- holds_like.
    apply (sql_all_given_ok true). }
  rewrite !sql_all_given_ok.
  change (sql_all [Ok (text_eq (Entry.username e) username)])
    with (sql_all (if true then [Ok (text_eq (Entry.username e) username)]
                   else [])).
  rewrite sql_all_given_ok. cbn [negb orb mbind result_bind].
  repeat match goal with
         | |- context [if ?b then _ else _] => destruct b; cbn
         end; reflexivity.
Qed.

(** A row is kept only when no pattern is too long. *)
Lemma search_where_true username search_query category tag favorites_only
    exclude_archived e :
  search_where username search_query category tag favorites_only
    exclude_archived e = Ok true →
  filter_fits search_query = true
  ∧ filter_fits category = true
  ∧ filter_fits tag = true.
Proof.
  unfold search_where, filter_fits. rewrite search_terms_eq. cbv zeta.
  rewrite !sql_all_app_true, !sql_all_given.
  intros (_ & Hq & Hc & Ht & _). repeat split.
  - destruct (truthy (PStr search_query)); [|reflexivity].
    destruct Hq as (v & Hv & _); [reflexivity|].
    apply sql_any_Ok in Hv. exact Hv.
  - destruct (truthy (PStr category)); [|reflexivity].
    destruct Hc as (v & Hv & _); [reflexivity|].
    apply text_like_Ok in Hv. exact Hv.
  - destruct (truthy (PStr tag)); [|reflexivity].
    destruct Ht as (v & Hv & _); [reflexivity|].
    apply text_like_Ok in Hv. exact Hv.
Qed.

Lemma search_where_passes username search_query category tag favorites_only
    exclude_archived e :
  search_where username search_query category tag favorites_only
    exclude_archived e = Ok true
  ↔ filter_fits search_query = true
    ∧ filter_fits category = true
    ∧ filter_fits tag = true
    ∧ passes_filters username search_query category tag favorites_only
        exclude_archived e = true.
Proof.
  split.
  - intros H. destruct (search_where_true _ _ _ _ _ _ _ H) as (Hq & Hc & Ht).
    rewrite search_where_fits in H by assumption.
    injection H as H. auto.
  - intros (Hq & Hc & Ht & Hp).
    rewrite search_where_fits by assumption. rewrite Hp. reflexivity.
Qed.

Lemma search_entries_fits username search_query category tag favorites_only
    exclude_archived d :
  filter_fits search_query = true →
  filter_fits category = true →
  filter_fits tag = true →
  search_entries username search_query category tag favorites_only
    exclude_archived d
  = select_tuple
      <$> order_by_uploaded_at_desc
            (filter (λ e, passes_filters username search_query category tag
                            favorites_only exclude_archived e)
                    (entries d)).
Proof.
  intros Hq Hc Ht. unfold search_entries.
  rewrite (scan_ok _ (passes_filters username search_query category tag
                        favorites_only exclude_archived)); [reflexivity|].
  intros e _. apply search_where_fits; assumption.
Qed.

Lemma search_entries_elem username search_query category tag favorites_only
    exclude_archived d t :
  t ∈ search_entries username search_query category tag favorites_only
        exclude_archived d
  ↔ ∃ e, e ∈ entries d
         ∧ search_where username search_query category tag favorites_only
             exclude_archived e = Ok true
         ∧ t = select_tuple e.
Proof.
  split.
  - unfold search_entries.
    destruct (scan _ (entries d)) as [rows|] eqn:Hs;
      [|intros H; inversion H].
    intros Ht. apply list_elem_of_fmap in Ht as (e & -> & He).
    rewrite order_by_Permutation in He.
    apply (scan_elem _ _ _ Hs) in He as [He Hw]. eauto.
  - intros (e & He & Hw & ->).
    destruct (search_where_true _ _ _ _ _ _ _ Hw) as (Hq & Hc & Ht).
    rewrite search_entries_fits by assumption.
    apply list_elem_of_fmap_2. rewrite order_by_Permutation.
    apply list_elem_of_filter. split; [|exact He].
    apply search_where_passes in Hw as (_ & _ & _ & ->). exact I.
Qed.

Lemma passes_filters_exclude username search_query category tag
    favorites_only e :
  passes_filters username search_query category tag favorites_only true e
  = passes_filters username search_query category tag favorites_only false e
    && holds (sql_or (numeric_eq (Entry.is_archived e) 0)
                     (is_null (Entry.is_archived e))).
Proof.
  unfold passes_filters. cbn [negb orb]. rewrite andb_true_r. reflexivity.
Qed.

(** C5. With [exclude_archived] true, whatever the other filters,
    [search_entries] returns no entry whose [is_archived] is true: the
    field of every tuple returned is 0 or [None].  An entry whose
    [is_archived] is NULL and which the other filters keep is returned. *)
Theorem search_excludes_archived username search_query category tag
    favorites_only d :
  (∀ t, t ∈ search_entries username search_query category tag favorites_only
              true d →
        ∃ v, streamlit_app.get_entry_field t "is_archived" = Ok v
             ∧ (v = SInt 0 ∨ v = SNull)
             ∧ sql_truthy v = false)
  ∧ (∀ e, e ∈ entries d →
          Entry.is_archived e = SNull →
          search_where username search_query category tag favorites_only
            false e = Ok true →
          select_tuple e
          ∈ search_entries username search_query category tag favorites_only
              true d).
Proof.
  split.
  - intros t Ht. apply search_entries_elem in Ht as (e & _ & Hh & ->).
    apply search_where_passes in Hh as (_ & _ & _ & Hh).
    rewrite passes_filters_exclude in Hh.
    apply andb_true_iff in Hh as [_ Hh].
    exists (Entry.is_archived e). split; [apply select_tuple_is_archived|].
    destruct (Entry.is_archived e) as [|z|s]; simpl in Hh.
    + split; [right|]; reflexivity.
    + case_bool_decide; [subst z|discriminate].
      split; [left|]; reflexivity.
    + discriminate.
  - intros e He Hnull Hh. apply search_entries_elem.
    exists e. split; [exact He|]. split; [|reflexivity].
    apply search_where_passes in Hh as (Hq & Hc & Ht & Hp).
    apply search_where_passes. repeat split; try assumption.
    rewrite passes_filters_exclude, Hp, Hnull. reflexivity.
Qed.



Lemma pattern_matches_field (q : string) (e : entry) :
  pattern_matches q e = true
  ↔ ∃ s, Some s ∈ searched_fields e ∧ like ("%" ++ q ++ "%") s = true.
Proof.
  unfold pattern_matches. rewrite existsb_exists. split.
  - intros ([s|] & Hin & Hl); [|discriminate].
    exists s. split; [apply list_elem_of_In; exact Hin|exact Hl].
  - intros (s & Hin & Hl). exists (Some s).
    split; [apply list_elem_of_In; exact Hin|exact Hl].
Qed.

(** C6, amended. For a non-empty query and no other filter: when the
    pattern [%query%] has more than 50000 bytes, [search_entries] returns
    the empty list.  Otherwise it returns exactly the owner's entries of
    which one of the six columns title, description, image_caption,
    filename, tags and notes is matched by the LIKE pattern [%query%], in
    which [%] stands for any run of characters, [_] for any one character,
    the case of the letters of ASCII is ignored, and pattern and column are
    read up to their first NUL.  For a query without [%], [_] and NUL it
    returns exactly the owner's entries in which the query occurs, up to
    that case, as a substring of one of the six columns before the column's
    first NUL.  In particular a query equal to a substring of an entry's
    description before its first NUL, with its ASCII letters in upper or in
    lower case, matches that entry. *)
Theorem search_query_like username search_query d :
  search_query ≠ "" →
  (pattern_fits search_query = false →
   search_entries username search_query "" "" false false d = [])
  ∧ (pattern_fits search_query = true →
     search_entries username search_query "" "" false false d
       ≡ₚ select_tuple
            <$> filter (λ e, Entry.username e = Some username
                             ∧ pattern_matches search_query e)
                       (entries d)
     ∧ (wildcard_free search_query → nul_free search_query →
        ∀ t, t ∈ search_entries username search_query "" "" false false d
             ↔ ∃ e s, e ∈ entries d
                      ∧ Entry.username e = Some username
                      ∧ Some s ∈ searched_fields e
                      ∧ occurs_folded search_query (c_string s)
                      ∧ t = select_tuple e)
     ∧ (∀ e pre m post,
          e ∈ entries d →
          Entry.username e = Some username →
          Entry.description e = Some (pre ++ m ++ post) →
          nul_free (pre ++ m) →
          search_query = ascii_upper m ∨ search_query = ascii_lower m →
          select_tuple e
          ∈ search_entries username search_query "" "" false false d)).
Proof.
  intros Hq.
  assert (truthy (PStr search_query) = true) as Htq
    by (unfold truthy; destruct (String.eqb_spec search_query "");
        [contradiction|reflexivity]).
  split.
  - intros Hlong. unfold search_entries.
    destruct (scan_none
                (search_where username search_query "" "" false false)
                (entries d)) as [-> | [err ->]]; try reflexivity.
    intros e _ Hw. apply search_where_true in Hw as (Hf & _).
    unfold filter_fits in Hf. rewrite Htq, Hlong in Hf. discriminate.
  - intros Hfit.
    assert (filter_fits search_query = true) as Hf
      by (unfold filter_fits; rewrite Hfit; apply orb_true_r).
    assert (∀ e, passes_filters username search_query "" "" false false e
                 = holds (text_eq (Entry.username e) username)
                   && pattern_matches search_query e) as Hpass.
    { intros e. unfold passes_filters. rewrite Htq. cbn.
      rewrite !andb_true_r. reflexivity. }
    assert (∀ t, t ∈ search_entries username search_query "" "" false false d
                 ↔ ∃ e, e ∈ entries d
                        ∧ Entry.username e = Some username
                        ∧ pattern_matches search_query e = true
                        ∧ t = select_tuple e) as Helem.
    { intros t. rewrite search_entries_elem. split.
      - intros (e & He & Hw & ->).
        apply search_where_passes in Hw as (_ & _ & _ & Hp).
        rewrite Hpass in Hp. apply andb_true_iff in Hp as [Hu Hp].
        apply holds_text_eq in Hu. eauto.
      - intros (e & He & Hu & Hp & ->). exists e.
        split; [exact He|]. split; [|reflexivity].
        apply search_where_passes. repeat split; try assumption;
          try reflexivity.
        rewrite Hpass, Hp. apply holds_text_eq in Hu. rewrite Hu.
        reflexivity. }
    split; [|split].
    + rewrite search_entries_fits by (assumption || reflexivity).
      rewrite order_by_Permutation.
      apply fmap_Permutation. erewrite list_filter_iff; [reflexivity|].
      intros e. cbv beta. rewrite Hpass, <- holds_text_eq.
      destruct (holds (text_eq (Entry.username e) username));
        destruct (pattern_matches search_query e); simpl;
        intuition congruence.
    + intros Hw Hn t. rewrite Helem. split.
      * intros (e & He & Hu & Hp & ->).
        apply pattern_matches_field in Hp as (s & Hin & Hl).
        exists e, s. repeat split; try assumption.
        apply like_occurs_inv; assumption.
      * intros (e & s & He & Hu & Hin & Ho & ->).
        exists e. repeat split; try assumption.
        apply pattern_matches_field. exists s.
        split; [exact Hin|apply like_occurs; assumption].
    + intros e pre m post He Hu Hd Hnul Hcase. apply Helem.
      exists e. repeat split; try assumption.
      apply pattern_matches_field. exists (pre ++ m ++ post).
      split; [unfold searched_fields; rewrite <- Hd; right; left|].
      apply nul_free_app in Hnul as [Hpre Hm].
      apply like_occurs.
      * destruct Hcase as [-> | ->];
          [apply nul_free_upper|apply nul_free_lower]; exact Hm.
      * exists pre, m, (c_string post). split.
        -- rewrite c_string_app by exact Hpre.
           rewrite c_string_app by exact Hm. reflexivity.
        -- destruct Hcase as [-> | ->];
             [rewrite ascii_upper_idemp|rewrite ascii_upper_lower];
             reflexivity.
Qed.

(** The query "RED" finds the description "A Red Sky". *)
Lemma search_query_like_witness :
  "RED" ≠ ""
  ∧ select_tuple entry_5
    ∈ search_entries "ann" "RED" "" "" false false two_entries.
Proof.
  split; [discriminate|].
  refine (proj2 (proj2 (proj2 (search_query_like "ann" "RED" two_entries _)
                          eq_refl))
            entry_5 "A " "Red" " Sky" _ _ _ _ _).
  - discriminate.
  - left.
  - reflexivity.
  - reflexivity.
  - reflexivity.
  - left. reflexivity.
Defined.

Lemma prefix_same (s : string) : String.prefix s s = true.
Proof.
  induction s as [|c s IH]; [reflexivity|].
  cbn. destruct (ascii_dec c c); [exact IH|contradiction].
Qed.

Lemma occurs_in_itself (s : string) : occurs_ignoring_case s s = true.
Proof.
  unfold occurs_ignoring_case.
  destruct (Py.lower s) as [|c l]; [reflexivity|].
  change (Py.contains (String c l) (String c l))
    with (String.prefix (String c l) (String c l)
          || Py.contains (String c l) l).
  rewrite prefix_same. reflexivity.
Qed.

(** C6, as stated, fails for a query with a wildcard, for a letter outside
    ASCII, for a text with a NUL character and for a long query: the query
    "_" returns an entry of which no searched column has an underscore; the
    capital accented letter does not find the description that is its small
    form; the query "b" does not find the description that has a "b" after
    a NUL; and a query of 49999 letters does not find the description that
    is the query itself. *)
Lemma search_underscore_matches_any_character :
  (search_entries "ann" "_" "" "" false false two_entries
   = [select_tuple entry_5]
   ∧ ∀ s, Some s ∈ searched_fields entry_5 →
          occurs_ignoring_case "_" s = false)
  ∧ (search_entries "ann" E_acute "" "" false false accented = []
     ∧ ∃ e, e ∈ entries accented
            ∧ Entry.username e = Some "ann"
            ∧ Entry.description e = Some e_acute
            ∧ occurs_ignoring_case E_acute e_acute = true)
  ∧ (search_entries "ann" "b" "" "" false false with_nul = []
     ∧ ∃ e, e ∈ entries with_nul
            ∧ Entry.username e = Some "ann"
            ∧ Entry.description e = Some a_nul_b
            ∧ occurs_ignoring_case "b" a_nul_b = true)
  ∧ (search_entries "ann" long_query "" "" false false with_long_text = []
     ∧ ∃ e, e ∈ entries with_long_text
            ∧ Entry.username e = Some "ann"
            ∧ Entry.description e = Some long_query
            ∧ occurs_ignoring_case long_query long_query = true).
Proof.
  split; [|split; [|split]]; split.
  - vm_compute. reflexivity.
  - intros s Hs. unfold searched_fields in Hs. cbn in Hs.
    repeat (apply elem_of_cons in Hs as [Hs|Hs];
            [try discriminate; injection Hs as ->; vm_compute; reflexivity|]).
    inversion Hs.
  - vm_compute. reflexivity.
  - eexists. split; [left|]. repeat split.
  - vm_compute. reflexivity.
  - eexists. split; [left|]. repeat split.
  - vm_compute. reflexivity.
  - eexists. split; [left|]. split; [reflexivity|].
    split; [reflexivity|]. apply occurs_in_itself.
Qed.

(** ** Distinct labels *)

Lemma select_distinct_elem col username d s :
  s ∈ select_distinct col username d
  ↔ ∃ e, e ∈ entries d ∧ Entry.username e = Some username ∧ col e = Some s.
Proof.
  unfold select_distinct. rewrite elem_of_remove_dups, list_elem_of_omap.
  split; intros (e & He & H); exists e; (split; [exact He|]).
  - destruct (holds (text_eq (Entry.username e) username)) eqn:Hh;
      [|discriminate].
    apply holds_text_eq in Hh. auto.
  - destruct H as [Hu Hc]. apply holds_text_eq in Hu. rewrite Hu. exact Hc.
Qed.

Lemma add_labels_elem (pieces : list string) (acc : gset string) x :
  x ∈ fold_left (λ acc cat, acc ∪ {[ Py.strip cat ]}) pieces acc
  ↔ x ∈ acc ∨ x ∈ Py.strip <$> pieces.
Proof.
  revert acc. induction pieces as [|p pieces IH]; intros acc; simpl.
  - rewrite elem_of_nil. tauto.
  - rewrite IH, elem_of_cons. set_solver.
Qed.

Lemma collect_rows_elem (rows : list string) (acc : gset string) x :
  x ∈ fold_left
        (λ acc row0,
           if truthy (PStr row0)
           then fold_left (λ acc cat, acc ∪ {[ Py.strip cat ]})
                          (Py.split "," row0) acc
           else acc)
        rows acc
  ↔ x ∈ acc ∨ ∃ s, s ∈ rows ∧ s ≠ "" ∧ x ∈ labels_of s.
Proof.
  revert acc. induction rows as [|row rows IH]; intros acc; simpl.
  - split; [auto|]. intros [H|(s & Hs & _)]; [exact H|inversion Hs].
  - rewrite IH. destruct (String.eqb_spec row "") as [->|Hne]; simpl.
    + split; intros [H|(s & Hs & Hn & Hx)]; auto.
      * right. exists s. split; [right; exact Hs|auto].
      * apply elem_of_cons in Hs as [->|Hs]; [contradiction|].
        right. exists s. auto.
    + rewrite add_labels_elem.
      split; intros [H|(s & Hs & Hn & Hx)].
      * destruct H as [H|H]; [auto|]. right. exists row.
        split; [left|]. auto.
      * right. exists s. split; [right; exact Hs|auto].
      * auto.
      * apply elem_of_cons in Hs as [->|Hs].
        -- left. right. exact Hx.
        -- right. exists s. auto.
Qed.

Lemma collect_labels_lists (rows : list string) :
  StronglySorted String.le (collect_labels rows)
  ∧ NoDup (collect_labels rows)
  ∧ ∀ x, x ∈ collect_labels rows
         ↔ ∃ s, s ∈ rows ∧ s ≠ "" ∧ x ∈ labels_of s.
Proof.
  unfold collect_labels. split; [|split].
  - apply StronglySorted_merge_sort; apply _.
  - rewrite merge_sort_Permutation. apply NoDup_elements.
  - intros x. rewrite merge_sort_Permutation, elem_of_elements.
    rewrite collect_rows_elem. rewrite elem_of_empty. tauto.
Qed.

Lemma distinct_labels_lists col username d :
  lists_labels col username d (collect_labels (select_distinct col username d)).
Proof.
  destruct (collect_labels_lists (select_distinct col username d))
    as (Hs & Hn & Hx).
  split; [exact Hs|]. split; [exact Hn|].
  intros x. rewrite Hx. split.
  - intros (s & Hin & Hne & Hl).
    apply select_distinct_elem in Hin as (e & He & Hu & Hc).
    exists e, s. auto.
  - intros (e & s & He & Hu & Hc & Hne & Hl).
    exists s. split; [|auto]. apply select_distinct_elem. exists e. auto.
Qed.

(** C7, amended. [get_all_categories] and [get_all_tags] return, in
    ascending lexicographic order and without duplicates, exactly the labels
    obtained from the non-empty label texts of the owner's entries by
    splitting on commas and stripping white space from each piece; a text
    that is empty contributes nothing.  On the labels "a, b" and " b , c"
    across two entries they return ["a"; "b"; "c"]. *)
Theorem get_all_labels_sorted_distinct username d :
  lists_labels Entry.categories username d (get_all_categories username d)
  ∧ lists_labels Entry.tags username d (get_all_tags username d)
  ∧ get_all_categories "ann" labelled = ["a"; "b"; "c"]
  ∧ get_all_tags "ann" labelled = ["a"; "b"; "c"].
Proof.
  split; [apply distinct_labels_lists|].
  split; [apply distinct_labels_lists|].
  split; vm_compute; reflexivity.
Qed.

(** C7, as stated, fails on an empty label text: its one piece is the
    empty label, and the result does not have it. *)
Lemma get_all_categories_skips_empty_text :
  (∃ e s, e ∈ entries two_entries ∧ Entry.username e = Some "ann"
          ∧ Entry.categories e = Some s ∧ "" ∈ labels_of s)
  ∧ get_all_categories "ann" two_entries = [].
Proof.
  split; [|vm_compute; reflexivity].
  exists entry_5, "". split; [left|]. repeat split. left.
Qed.

(** * Further properties *)

(** ** The accessor on the tuples of the store *)

Lemma select_tuple_id (e : entry) :
  streamlit_app.get_entry_field (select_tuple e) "id" = Ok (SInt (Entry.id e)).
Proof. vm_compute. reflexivity. Qed.

Lemma select_tuple_username (e : entry) :
  streamlit_app.get_entry_field (select_tuple e) "username"
  = Ok (of_text (Entry.username e)).
Proof. vm_compute. reflexivity. Qed.

Lemma allowed_field_in_tuple (field : string) (e : entry) :
  field ∈ allowed_fields →
  streamlit_app.get_entry_field (select_tuple e) field
  = Ok (get_column field e).
Proof.
  intros Hf. unfold allowed_fields in Hf.
  repeat (apply elem_of_cons in Hf as [->|Hf]; [vm_compute; reflexivity|]).
  inversion Hf.
Qed.

(** X1. On a tuple that a SELECT of [components/db.py] returns, the accessor
    of [streamlit_app.py] gives, for each of the 19 column names of the
    SELECT, the element of that column: its name-to-position table follows
    the column order of the query. *)
Theorem accessor_follows_select (e : entry) :
  (λ field_name, streamlit_app.get_entry_field (select_tuple e) field_name)
    <$> select_columns
  = Ok <$> select_tuple e.
Proof. vm_compute. reflexivity. Qed.

(** X2. The accessors of [app.py] and [streamlit_app_enhanced.py] follow
    another column order.  On the same tuples, which both files get from
    [get_entries], [search_entries] and [get_entry_by_id], [app.py] reads the
    description as the title, the caption as the file name, the owner id as
    the categories, the favourite flag as the archive flag, and [None] as
    the upload time; [streamlit_app_enhanced.py] reads the file name as the
    title, the upload time as the categories, and [None] as the upload
    time. *)
Theorem other_accessors_misread_select (e : entry) :
  let t := select_tuple e in
  app.get_entry_field t "id" = Ok (SInt (Entry.id e))
  ∧ app.get_entry_field t "title" = Ok (of_text (Entry.description e))
  ∧ app.get_entry_field t "filename" = Ok (of_text (Entry.image_caption e))
  ∧ app.get_entry_field t "description" = Ok (of_text (Entry.link e))
  ∧ app.get_entry_field t "categories" = Ok (of_int (Entry.user_id e))
  ∧ app.get_entry_field t "tags" = Ok (of_text (Entry.file_path e))
  ∧ app.get_entry_field t "is_favorite" = Ok (of_text (Entry.notes e))
  ∧ app.get_entry_field t "is_archived" = Ok (Entry.is_favorite e)
  ∧ app.get_entry_field t "created_at" = Ok (Entry.is_archived e)
  ∧ app.get_entry_field t "uploaded_at" = Ok SNull
  ∧ streamlit_app_enhanced.get_entry_field t "title"
    = Ok (of_text (Entry.filename e))
  ∧ streamlit_app_enhanced.get_entry_field t "description"
    = Ok (of_text (Entry.image_caption e))
  ∧ streamlit_app_enhanced.get_entry_field t "categories"
    = Ok (of_text (Entry.uploaded_at e))
  ∧ streamlit_app_enhanced.get_entry_field t "tags"
    = Ok (of_int (Entry.user_id e))
  ∧ streamlit_app_enhanced.get_entry_field t "is_favorite"
    = Ok (of_int (Entry.image_height e))
  ∧ streamlit_app_enhanced.get_entry_field t "uploaded_at" = Ok SNull.
Proof. intros t. subst t. repeat split; vm_compute; reflexivity. Qed.

(** ** Category and caption extraction *)

Lemma take_filter_prefix {A} (P : A → Prop) `{∀ x, Decision (P x)}
    (n : nat) (l : list A) (x : A) :
  x ∈ filter P (take n l) → x ∈ take n (filter P l).
Proof.
  revert n. induction l as [|y l IH]; intros [|n]; cbn [take];
    try (rewrite filter_nil; intros Hx; inversion Hx).
  rewrite !filter_cons. destruct (decide (P y)).
  - cbn [take]. rewrite !elem_of_cons. intros [->|Hx]; [left; reflexivity|].
    right. apply IH, Hx.
  - intros Hx. apply IH in Hx.
    eapply elem_of_sublist; [exact Hx|].
    replace (take n (filter P l)) with (take n (take (S n) (filter P l)))
      by (rewrite take_take; f_equal; lia).
    apply sublist_take.
Qed.

Lemma fst_unique {A B} (l : list (A * B)) (x : A) (y1 y2 : B) :
  NoDup l.*1 → (x, y1) ∈ l → (x, y2) ∈ l → y1 = y2.
Proof.
  induction l as [|[a b] l IH]; intros Hnd H1 H2; [inversion H1|].
  cbn in Hnd. apply NoDup_cons in Hnd as [Hnot Hnd].
  apply elem_of_cons in H1 as [H1|H1]; apply elem_of_cons in H2 as [H2|H2].
  - congruence.
  - exfalso. apply Hnot. apply list_elem_of_fmap. exists (x, y2).
    split; [cbn; congruence|exact H2].
  - exfalso. apply Hnot. apply list_elem_of_fmap. exists (x, y1).
    split; [cbn; congruence|exact H1].
  - apply IH; assumption.
Qed.

Lemma category_names_NoDup : NoDup category_keywords.*1.
Proof. refine (bool_decide_unpack _ _). vm_compute. exact I. Qed.

Lemma general_is_no_key : "general" ∉ category_keywords.*1.
Proof. refine (bool_decide_unpack _ _). vm_compute. exact I. Qed.

(** X3. [extract_categories_from_text] never returns an empty list and
    never a category twice.  A category of the dictionary is returned only
    when one of its keywords occurs in the lower-cased text, and each of the
    first five of the dictionary (nature, people, animal, food, technology)
    is returned whenever one of its keywords occurs: the cut at five drops
    only the later ones. *)
Theorem extract_categories_found (text : string) :
  let found := extract_categories_from_text text in
  found ≠ []
  ∧ NoDup found
  ∧ (∀ category keywords,
       (category, keywords) ∈ category_keywords →
       category ∈ found →
       any_keyword keywords (Py.lower text) = true)
  ∧ (∀ category keywords,
       (category, keywords) ∈ take 5 category_keywords →
       any_keyword keywords (Py.lower text) = true →
       category ∈ found).
Proof.
  intros found. subst found. unfold extract_categories_from_text.
  cbv zeta.
  set (F := (filter (λ ck : string * list string,
                       any_keyword ck.2 (Py.lower text))
                    category_keywords).*1).
  assert (NoDup F) as Hnd.
  { assert (F `sublist_of` category_keywords.*1) as Hsub
      by (apply fmap_sublist, sublist_filter).
    pose proof category_names_NoDup as Hall.
    eapply sublist_NoDup; eassumption. }
  assert (∀ category keywords,
            (category, keywords) ∈ category_keywords →
            category ∈ F →
            any_keyword keywords (Py.lower text) = true) as Hsound.
  { intros category keywords Hin Hc.
    apply list_elem_of_fmap in Hc as ([c kws] & -> & Hf).
    apply list_elem_of_filter in Hf as [Hh Hf]. cbn in Hin.
    rewrite (fst_unique _ _ _ _ category_names_NoDup Hin Hf).
    apply Is_true_true. exact Hh. }
  assert (∀ category keywords,
            (category, keywords) ∈ take 5 category_keywords →
            any_keyword keywords (Py.lower text) = true →
            category ∈ take 5 F) as Hfirst.
  { intros category keywords Hin Hhit. unfold F. rewrite <- fmap_take.
    apply list_elem_of_fmap. exists (category, keywords).
    split; [reflexivity|]. apply take_filter_prefix.
    apply list_elem_of_filter. split; [|exact Hin].
    apply Is_true_true. exact Hhit. }
  clearbody F. destruct F as [|c0 l0].
  - split; [discriminate|]. split; [apply NoDup_singleton|]. split.
    + intros category keywords Hin Hc.
      apply list_elem_of_singleton in Hc as ->. exfalso.
      apply general_is_no_key.
      apply list_elem_of_fmap. exists ("general", keywords). auto.
    + intros category keywords Hin Hhit.
      specialize (Hfirst category keywords Hin Hhit). inversion Hfirst.
  - split; [discriminate|]. split.
    { assert (take 5 (c0 :: l0) `sublist_of` c0 :: l0) as Hsub
        by apply sublist_take.
      eapply sublist_NoDup; eassumption. }
    split.
    + intros category keywords Hin Hc. apply (Hsound category keywords Hin).
      eapply elem_of_sublist; [exact Hc|apply sublist_take].
    + exact Hfirst.
Qed.

Lemma length_py_take n s :
  String.length (Py.take n s) = Nat.min n (String.length s).
Proof.
  revert s. induction n as [|n IH]; intros [|c s]; cbn; try reflexivity.
  rewrite IH. reflexivity.
Qed.

Lemma length_string_app (a b : string) :
  String.length (a ++ b) = (String.length a + String.length b)%nat.
Proof.
  induction a as [|c a IH]; [reflexivity|].
  change (String c a ++ b) with (String c (a ++ b)). cbn. rewrite IH.
  reflexivity.
Qed.

(** X4. The caption [extract_caption_from_text] returns has more than 10
    and at most 103 characters, whatever the text: a sentence of more than
    10 characters cut at 100 with an ellipsis of three, or the 14 characters
    of "Image analysis". *)
Theorem extract_caption_length (text : string) :
  10 < Py.len (extract_caption_from_text text) ≤ 103.
Proof.
  unfold extract_caption_from_text.
  destruct (List.find _ (Py.split "." text)) as [sentence|] eqn:Hfind.
  - apply find_some in Hfind as [_ Hlen].
    apply Z.ltb_lt in Hlen. unfold Py.len in *.
    rewrite length_string_app, length_py_take.
    destruct (100 <? Z.of_nat (String.length sentence)); cbn [String.length];
      lia.
  - vm_compute. split; [reflexivity|discriminate].
Qed.

(** ** What a failed or successful save leaves behind *)

Lemma find_fmap_same {A} (p : A → bool) (f : A → A) (l : list A) :
  (∀ x, p (f x) = p x) → List.find p (f <$> l) = f <$> List.find p l.
Proof.
  intros Hp. induction l as [|x l IH]; [reflexivity|].
  cbn. rewrite Hp. destruct (p x); [reflexivity|exact IH].
Qed.

Lemma find_filter_keeps {A} (p : A → bool) (Q : A → Prop)
    `{∀ x, Decision (Q x)} (l : list A) :
  (∀ x, p x = true → Q x) → List.find p (filter Q l) = List.find p l.
Proof.
  intros Hp. induction l as [|x l IH]; [reflexivity|].
  rewrite (filter_cons Q x l). cbn. destruct (decide (Q x)) as [Hq|Hq]; cbn.
  - rewrite IH. reflexivity.
  - destruct (p x) eqn:Hx; [|exact IH]. exfalso. apply Hq, Hp, Hx.
Qed.

Lemma where_entry_frozen entry_id user_id (e e' : entry) :
  frozen e' = frozen e →
  where_entry entry_id user_id e' = where_entry entry_id user_id e.
Proof.
  unfold frozen, where_entry. intros [= Hid Hu _ _ _ _ _ _ _ _].
  rewrite Hid, Hu. reflexivity.
Qed.

Lemma delete_entry_entries entry_id user_id d fs :
  entries (delete_entry entry_id user_id d fs).1.2
  = filter (λ e, ¬ holds (where_entry entry_id user_id e)) (entries d)
  ∧ entries_seq (delete_entry entry_id user_id d fs).1.2 = entries_seq d.
Proof.
  unfold delete_entry.
  destruct (List.find _ (entries d)) as [e|] eqn:Hfind; [split; reflexivity|].
  split; [|reflexivity]. cbn [fst snd].
  symmetry. induction (entries d) as [|x l IH]; [reflexivity|].
  simpl in Hfind.
  destruct (holds (where_entry entry_id user_id x)) eqn:Hx; [discriminate|].
  rewrite filter_cons_True by (rewrite Hx; exact id).
  f_equal. apply IH, Hfind.
Qed.

Section Store.

Variable numeric_of_text : string → sqlval.
Variable image_size : list Byte.byte → option (Z * Z).

Lemma insert_data_not_saved now username image_file a d fs :
  (insert_data numeric_of_text image_size now username image_file a d fs).1.1
  ≠ Saved →
  (insert_data numeric_of_text image_size now username image_file a d fs).1.2
  = d.
Proof.
  unfold insert_data.
  destruct (get_user_by_username username d) as [u|]; [|reflexivity].
  destruct image_file as [f|].
  - destruct (write_file _ _ fs) as [fs1|]; cbn; [|reflexivity].
    match goal with |- context [match ?row with Ok _ => _ | Raise _ => _ end] =>
      destruct row end; cbn; congruence.
  - cbn.
    match goal with |- context [match ?row with Ok _ => _ | Raise _ => _ end] =>
      destruct row end; cbn; congruence.
Qed.

Lemma insert_data_saved_file now username image_file a d fs d' fs' :
  insert_data numeric_of_text image_size now username image_file a d fs
  = (Saved, d', fs') →
  ∃ u r b_title,
    get_user_by_username username d = Some u
    ∧ d' = {| users := users d; entries := entries d ++ [r];
              entries_seq := next_id d |}
    ∧ Entry.id r = next_id d
    ∧ Entry.user_id r = Some (User.id u)
    ∧ bind (if truthy (arg_title a) then arg_title a
            else PStr (default_title image_file)) = Ok b_title
    ∧ Entry.title r = to_text b_title
    ∧ match image_file with
      | Some f =>
          (upload_path now (User.id u) (name f) ∉ denied fs)
          ∧ fs' = {| files :=
                       <[upload_path now (User.id u) (name f) := getbuffer f]>
                         (files fs);
                     denied := denied fs |}
          ∧ Entry.filename r = Some (name f)
          ∧ Entry.file_path r = Some (upload_path now (User.id u) (name f))
          ∧ Entry.file_size r = Some (Z.of_nat (length (getbuffer f)))
          ∧ Entry.image_width r = fst <$> image_size (getbuffer f)
          ∧ Entry.image_height r = snd <$> image_size (getbuffer f)
      | None =>
          fs' = fs
          ∧ Entry.filename r = Some ""
          ∧ Entry.file_path r = None
          ∧ Entry.file_size r = None
          ∧ Entry.image_width r = None
          ∧ Entry.image_height r = None
      end.
Proof.
  unfold insert_data, default_title.
  destruct (get_user_by_username username d) as [u|]; [|discriminate].
  destruct image_file as [f|].
  - unfold write_file.
    destruct (bool_decide_reflect
                (upload_path now (User.id u) (name f) ∈ denied fs))
      as [Hden|Hden]; [discriminate|].
    cbn [mbind result_bind].
    destruct (labels_as_text (arg_categories a)) as [categories|];
      [|discriminate].
    destruct (labels_as_text (arg_tags a)) as [tags|]; [|discriminate].
    cbn [mbind result_bind].
    destruct (bind (if truthy (arg_title a) then _ else _)) as [b_title|]
      eqn:Hbt; [|discriminate].
    destruct (bind (arg_description a)); [|discriminate].
    destruct (bind (arg_summary a)); [|discriminate].
    destruct (bind (arg_link a)); [|discriminate].
    destruct (bind categories); [|discriminate].
    destruct (bind tags); [|discriminate].
    destruct (bind (arg_notes a)); [|discriminate].
    destruct (bind (arg_is_favorite a)); [|discriminate].
    cbn. intros [= <- <-].
    eexists u, _, b_title.
    repeat split; first [reflexivity | assumption].
  - cbn [mbind result_bind].
    destruct (labels_as_text (arg_categories a)) as [categories|];
      [|discriminate].
    destruct (labels_as_text (arg_tags a)) as [tags|]; [|discriminate].
    cbn [mbind result_bind].
    destruct (bind (if truthy (arg_title a) then _ else _)) as [b_title|]
      eqn:Hbt; [|discriminate].
    destruct (bind (arg_description a)); [|discriminate].
    destruct (bind (arg_summary a)); [|discriminate].
    destruct (bind (arg_link a)); [|discriminate].
    destruct (bind categories); [|discriminate].
    destruct (bind tags); [|discriminate].
    destruct (bind (arg_notes a)); [|discriminate].
    destruct (bind (arg_is_favorite a)); [|discriminate].
    cbn. intros [= <- <-].
    eexists u, _, b_title.
    repeat split; first [reflexivity | assumption].
Qed.

(** X5. A call of [insert_data] that does not report success leaves the
    table as it was; one for an unknown user also leaves the file system as
    it was; and a call without an upload never changes the file system. *)
Theorem insert_data_failure_keeps_store now username image_file a d fs :
  let r := insert_data numeric_of_text image_size now username image_file a
             d fs in
  (r.1.1 ≠ Saved → r.1.2 = d)
  ∧ (get_user_by_username username d = None → r = (UserNotFound, d, fs))
  ∧ (image_file = None → r.2 = fs).
Proof.
  intros r. subst r. unfold insert_data.
  destruct (get_user_by_username username d) as [u|].
  2:{ repeat split; reflexivity. }
  destruct image_file as [f|].
  - destruct (write_file _ _ fs) as [fs1|]; cbn.
    + match goal with |- context [match ?row with Ok _ => _ | Raise _ => _ end] =>
        destruct row end; cbn; repeat split; try congruence.
    + repeat split; congruence.
  - cbn.
    match goal with |- context [match ?row with Ok _ => _ | Raise _ => _ end] =>
      destruct row end; cbn; repeat split; congruence.
Qed.

(** X6. The upload is written before the row is built.  When the owner
    exists and the file can be written, but the list of categories holds
    something that is not a string, [insert_data] reports the error and
    saves no entry, and the uploaded file stays on the disk. *)
Theorem insert_data_orphan_upload now username u f a d fs e :
  get_user_by_username username d = Some u →
  upload_path now (User.id u) (name f) ∉ denied fs →
  labels_as_text (arg_categories a) = Raise e →
  insert_data numeric_of_text image_size now username (Some f) a d fs
  = (SaveError e, d,
     {| files := <[upload_path now (User.id u) (name f) := getbuffer f]>
                   (files fs);
        denied := denied fs |}).
Proof.
  intros Hu Hw He. unfold insert_data, write_file.
  rewrite Hu, bool_decide_eq_false_2 by exact Hw.
  cbn. rewrite He. reflexivity.
Qed.

(** X7. After a successful [insert_data] with an upload, the file system
    holds the uploaded bytes under the upload path and is otherwise
    unchanged, and the new entry read back by its id records that path, the
    file's name, the number of bytes, and the image's width and height when
    the bytes decode as an image ([None] otherwise). *)
Theorem upload_is_stored_and_recorded now username f a d fs d' fs' :
  insert_data numeric_of_text image_size now username (Some f) a d fs
  = (Saved, d', fs') →
  ∃ u t,
    get_user_by_username username d = Some u
    ∧ get_entry_by_id (next_id d) None d' = Some t
    ∧ files fs' !! upload_path now (User.id u) (name f) = Some (getbuffer f)
    ∧ (∀ p, p ≠ upload_path now (User.id u) (name f) →
            files fs' !! p = files fs !! p)
    ∧ streamlit_app.get_entry_field t "file_path"
      = Ok (SText (upload_path now (User.id u) (name f)))
    ∧ streamlit_app.get_entry_field t "filename" = Ok (SText (name f))
    ∧ streamlit_app.get_entry_field t "file_size"
      = Ok (SInt (Z.of_nat (length (getbuffer f))))
    ∧ streamlit_app.get_entry_field t "image_width"
      = Ok (of_int (fst <$> image_size (getbuffer f)))
    ∧ streamlit_app.get_entry_field t "image_height"
      = Ok (of_int (snd <$> image_size (getbuffer f))).
Proof.
  intros Hins.
  apply insert_data_saved_file in Hins
    as (u & r & bt & Hu & -> & Hid & Hown & _ & _ & Hden & -> & Hfn & Hfp
        & Hfs & Hw & Hh).
  exists u, (select_tuple r). split; [exact Hu|].
  split.
  { apply (get_entry_by_id_new d r None (User.id u)); auto. }
  cbn [files]. split; [apply lookup_insert_eq|].
  split; [intros p Hp; apply lookup_insert_ne; congruence|].
  assert (∀ e, streamlit_app.get_entry_field (select_tuple e) "file_path"
               = Ok (of_text (Entry.file_path e))) as ->
    by (intros; vm_compute; reflexivity).
  assert (∀ e, streamlit_app.get_entry_field (select_tuple e) "filename"
               = Ok (of_text (Entry.filename e))) as ->
    by (intros; vm_compute; reflexivity).
  assert (∀ e, streamlit_app.get_entry_field (select_tuple e) "file_size"
               = Ok (of_int (Entry.file_size e))) as ->
    by (intros; vm_compute; reflexivity).
  assert (∀ e, streamlit_app.get_entry_field (select_tuple e) "image_width"
               = Ok (of_int (Entry.image_width e))) as ->
    by (intros; vm_compute; reflexivity).
  assert (∀ e, streamlit_app.get_entry_field (select_tuple e) "image_height"
               = Ok (of_int (Entry.image_height e))) as ->
    by (intros; vm_compute; reflexivity).
  rewrite Hfp, Hfn, Hfs, Hw, Hh. repeat split; reflexivity.
Qed.

(** X8. The title of a saved entry: when the [title] argument is false
    (empty, [None], 0), the entry read back is titled with the upload's name
    up to its last full stop, or "Untitled" when there is no upload or its
    name is empty; a non-empty title is stored as given. *)
Theorem title_falls_back_to_file_name now username image_file a d fs d' fs' :
  insert_data numeric_of_text image_size now username image_file a d fs
  = (Saved, d', fs') →
  ∃ t,
    get_entry_by_id (next_id d) None d' = Some t
    ∧ (truthy (arg_title a) = false →
       streamlit_app.get_entry_field t "title"
       = Ok (SText (default_title image_file)))
    ∧ (∀ s, arg_title a = PStr s → s ≠ "" →
            streamlit_app.get_entry_field t "title" = Ok (SText s)).
Proof.
  intros Hins.
  apply insert_data_saved_file in Hins
    as (u & r & bt & Hu & -> & Hid & Hown & Hbt & Ht & _).
  exists (select_tuple r). split.
  { apply (get_entry_by_id_new d r None (User.id u)); auto. }
  assert (streamlit_app.get_entry_field (select_tuple r) "title"
          = Ok (of_text (Entry.title r))) as ->
    by (vm_compute; reflexivity).
  rewrite Ht. split.
  - intros Hf. rewrite Hf in Hbt. cbn in Hbt. injection Hbt as <-.
    reflexivity.
  - intros s Hs Hne. rewrite Hs in Hbt. cbn [truthy] in Hbt.
    destruct (String.eqb_spec s ""); [contradiction|].
    cbn in Hbt. injection Hbt as <-. reflexivity.
Qed.

(** ** Ids *)

Lemma update_entry_ids now entry_id update_data user_id d :
  Entry.id <$> entries (update_entry numeric_of_text now entry_id update_data
                          user_id d).2
  = Entry.id <$> entries d
  ∧ entries_seq (update_entry numeric_of_text now entry_id update_data
                   user_id d).2 = entries_seq d.
Proof.
  unfold update_entry.
  destruct (negb _); [split; reflexivity|].
  destruct (filter _ update_data); [split; reflexivity|].
  destruct (bind_all _) as [sets|]; [|split; reflexivity].
  split; [|reflexivity]. cbn [snd entries].
  rewrite <- list_fmap_compose. apply list_fmap_ext. intros i e _.
  unfold compose. case_bool_decide; [|reflexivity].
  pose proof (assign_frozen numeric_of_text sets e) as Hf.
  unfold frozen in Hf. congruence.
Qed.

(** X9. The three writing operations keep the ids of the table distinct:
    when no two entries share an id, none do after [insert_data],
    [update_entry] or [delete_entry], whatever their arguments and
    outcome. *)
Theorem operations_keep_ids_unique now username image_file a entry_id
    update_data user_id d fs :
  unique_ids d →
  unique_ids (insert_data numeric_of_text image_size now username image_file
                a d fs).1.2
  ∧ unique_ids (update_entry numeric_of_text now entry_id update_data user_id
                  d).2
  ∧ unique_ids (delete_entry entry_id user_id d fs).1.2.
Proof.
  intros Hd. unfold unique_ids in *. split; [|split].
  - destruct (insert_data numeric_of_text image_size now username image_file
                a d fs) as [[r d'] fs'] eqn:Hins.
    pose proof (insert_data_not_saved now username image_file a d fs) as H.
    rewrite Hins in H. cbn in *.
    destruct r; try (rewrite H by discriminate; exact Hd).
    apply insert_data_saved in Hins as (row & ? & ? & ? & ? & ? & -> & Hid & _).
    cbn. rewrite fmap_app. apply NoDup_app. split; [exact Hd|].
    split; [|apply NoDup_singleton].
    intros i Hi Hin. apply list_elem_of_fmap in Hi as (e & -> & He).
    apply next_id_fresh in He. cbn in Hin.
    apply list_elem_of_singleton in Hin. lia.
  - destruct (update_entry_ids now entry_id update_data user_id d) as [-> _].
    exact Hd.
  - destruct (delete_entry_entries entry_id user_id d fs) as [-> _].
    assert (Entry.id <$> filter (λ e : entry,
                                   ¬ holds (where_entry entry_id user_id e))
                                (entries d)
            `sublist_of` Entry.id <$> entries d) as Hsub
      by (apply fmap_sublist, sublist_filter).
    eapply sublist_NoDup; eassumption.
Qed.

(** X10. The id of a deleted entry is not given again.  When the
    AUTOINCREMENT counter is at least every id of the table, it still is
    after each of the three writing operations, and after a delete the next
    id is above every id the table had before, the deleted one included. *)
Theorem freed_id_not_given_again now username image_file a entry_id
    update_data user_id d fs :
  seq_bounds d →
  seq_bounds (insert_data numeric_of_text image_size now username image_file
                a d fs).1.2
  ∧ seq_bounds (update_entry numeric_of_text now entry_id update_data user_id
                  d).2
  ∧ seq_bounds (delete_entry entry_id user_id d fs).1.2
  ∧ ∀ e, e ∈ entries d →
         Entry.id e < next_id (delete_entry entry_id user_id d fs).1.2.
Proof.
  intros Hd. unfold seq_bounds in *. repeat split.
  - destruct (insert_data numeric_of_text image_size now username image_file
                a d fs) as [[r d'] fs'] eqn:Hins.
    pose proof (insert_data_not_saved now username image_file a d fs) as H.
    rewrite Hins in H. cbn in *.
    destruct r; try (rewrite H by discriminate; exact Hd).
    apply insert_data_saved in Hins as (row & ? & ? & ? & ? & ? & -> & Hid & _).
    cbn. intros e He. apply elem_of_app in He as [He|He].
    + apply next_id_fresh in He. lia.
    + apply list_elem_of_singleton in He as ->. lia.
  - destruct (update_entry_ids now entry_id update_data user_id d)
      as [Hids ->].
    intros e He.
    assert (Entry.id e ∈ Entry.id <$> entries d) as Hin
      by (rewrite <- Hids; apply list_elem_of_fmap_2; exact He).
    apply list_elem_of_fmap in Hin as (e0 & -> & He0). apply Hd, He0.
  - destruct (delete_entry_entries entry_id user_id d fs) as [-> ->].
    intros e He. apply list_elem_of_filter in He as [_ He]. apply Hd, He.
  - intros e He. unfold next_id.
    destruct (delete_entry_entries entry_id user_id d fs) as [_ ->].
    specialize (Hd e He). lia.
Qed.

(** ** Write, then read *)

(** X11. An entry just saved is listed: after a successful [insert_data],
    [search_entries] for the owner with no filter but the exclusion of
    archived entries, and [get_entries] for the owner, both return a tuple
    with the new id, the owner's name and the archive flag 0. *)
Theorem new_entry_is_listed now username image_file a d fs d' fs' :
  insert_data numeric_of_text image_size now username image_file a d fs
  = (Saved, d', fs') →
  ∃ t,
    streamlit_app.get_entry_field t "id" = Ok (SInt (next_id d))
    ∧ streamlit_app.get_entry_field t "username" = Ok (SText username)
    ∧ streamlit_app.get_entry_field t "is_archived" = Ok (SInt 0)
    ∧ t ∈ search_entries username "" "" "" false true d'
    ∧ ∃ l, get_entries (Some username) None None d' = Ok l ∧ t ∈ l.
Proof.
  intros Hins.
  apply insert_data_saved in Hins
    as (r & ? & ? & ? & ? & ? & -> & Hid & Hu & _ & _ & Har & _).
  exists (select_tuple r).
  split; [rewrite select_tuple_id, Hid; reflexivity|].
  split; [rewrite select_tuple_username, Hu; reflexivity|].
  split; [rewrite select_tuple_is_archived, Har; reflexivity|].
  assert (r ∈ (entries d ++ [r])%list) as Hin
    by (apply elem_of_app; right; left).
  split.
  - apply search_entries_elem. exists r. cbn [entries].
    split; [exact Hin|]. split; [|reflexivity].
    apply search_where_passes. repeat split; try reflexivity.
    unfold passes_filters. cbn [truthy String.eqb negb orb].
    rewrite Hu, Har. cbn. rewrite bool_decide_eq_true_2 by reflexivity.
    reflexivity.
  - unfold get_entries, entries_params, name_given.
    destruct (truthy (PStr username)) eqn:Hname; cbn [app bind_params bind];
      cbn [mbind result_bind]; eexists; (split; [reflexivity|]);
      apply list_elem_of_fmap_2; rewrite order_by_Permutation;
      apply list_elem_of_filter; (split; [|exact Hin]);
      unfold entries_where, name_given; rewrite Hname; cbn.
    + rewrite Hu. cbn. rewrite bool_decide_eq_true_2 by reflexivity. exact I.
    + exact I.
Qed.

(** X12. What [update_entry] wrote is what [get_entry_by_id] reads: after
    an update that returns [True], for a patch that names no key twice, the
    entry read back with the same id and owner argument has, under every
    whitelisted key of the patch, the value of the patch as the column
    stores it, and its id is unchanged. *)
Theorem update_then_get now entry_id update_data user_id d field value :
  NoDup update_data.*1 →
  (field, value) ∈ update_data →
  field ∈ allowed_fields →
  (update_entry numeric_of_text now entry_id update_data user_id d).1 = true →
  ∃ t b,
    get_entry_by_id entry_id user_id
      (update_entry numeric_of_text now entry_id update_data user_id d).2
    = Some t
    ∧ bind value = Ok b
    ∧ streamlit_app.get_entry_field t field
      = Ok (stored numeric_of_text field b)
    ∧ streamlit_app.get_entry_field t "id" = Ok (SInt entry_id).
Proof.
  intros Hnd Hin Hf. unfold update_entry.
  destruct (existsb _ (entries d)) eqn:Hex; [|discriminate]. cbn [negb].
  set (updates := filter (λ fv : string * pyval, fv.1 ∈ allowed_fields)
                         update_data).
  assert ((field, value) ∈ updates) as Hinu
    by (apply list_elem_of_filter; split; assumption).
  destruct updates as [|x xs] eqn:Hupd; [inversion Hinu|].
  rewrite <- Hupd in *. rewrite bind_all_app.
  destruct (bind_all updates) as [su|] eqn:Hsu; [|discriminate].
  cbn. intros _.
  destruct (bind_all_elem _ _ _ _ Hsu Hinu) as (b & Hb & Hbin).
  apply existsb_exists in Hex as (e0 & Hin0 & He0).
  unfold get_entry_by_id. cbn [entries].
  rewrite find_fmap_same.
  2:{ intros e. f_equal. apply where_entry_frozen.
      case_bool_decide; [|reflexivity].
      rewrite assign_snoc, set_column_frozen. apply assign_frozen. }
  destruct (List.find _ (entries d)) as [e|] eqn:Hfind.
  2:{ apply find_none with (x := e0) in Hfind; [congruence|exact Hin0]. }
  apply find_some in Hfind as [_ Hw].
  apply where_entry_targets in Hw as [Hid _].
  cbn [fmap option_fmap option_map].
  rewrite bool_decide_eq_true_2 by exact Hid.
  eexists _, b. split; [reflexivity|]. split; [exact Hb|].
  rewrite allowed_field_in_tuple by exact Hf.
  rewrite select_tuple_id, assign_snoc.
  split.
  - f_equal. rewrite get_set_other.
    + apply assign_same; [|exact Hbin|exact Hf].
      rewrite (bind_all_keys _ _ Hsu). apply NoDup_filter_keys, Hnd.
    + intros ->. unfold allowed_fields in Hf.
      repeat (apply elem_of_cons in Hf as [[=]|Hf]). inversion Hf.
  - pose proof (set_column_frozen numeric_of_text "updated_at"
                  (SText (now_isoformat now))
                  (assign numeric_of_text su e)) as H1.
    pose proof (assign_frozen numeric_of_text su e) as H2.
    unfold frozen in H1, H2. congruence.
Qed.

End Store.

(** A list of categories that holds a number: no entry, and the file stays. *)
Lemma insert_data_orphan_upload_witness :
  get_user_by_username "ann" two_users = Some (User.mk 7 "ann")
  ∧ insert_data keep_text no_size noon "ann" (Some sunset_jpg)
      number_label_args two_users empty_disk
    = (SaveError TypeError, two_users,
       {| files := <[upload_path noon 7 "sunset.jpg" := []]> ∅;
          denied := ∅ |}).
Proof.
  split; [reflexivity|].
  apply (insert_data_orphan_upload keep_text no_size noon "ann"
           (User.mk 7 "ann") sunset_jpg number_label_args two_users
           empty_disk TypeError).
  - reflexivity.
  - apply not_elem_of_empty.
  - reflexivity.
Defined.

(** User 7 uploads "sunset.jpg": the file is on the disk, and the entry
    records its path and name. *)
Lemma upload_is_stored_and_recorded_witness :
  ∃ t,
    get_entry_by_id 1 None
      (insert_data keep_text no_size noon "ann" (Some sunset_jpg)
         default_args two_users empty_disk).1.2 = Some t
    ∧ files (insert_data keep_text no_size noon "ann" (Some sunset_jpg)
               default_args two_users empty_disk).2
        !! upload_path noon 7 "sunset.jpg" = Some []
    ∧ streamlit_app.get_entry_field t "file_path"
      = Ok (SText (upload_path noon 7 "sunset.jpg"))
    ∧ streamlit_app.get_entry_field t "filename" = Ok (SText "sunset.jpg").
Proof.
  destruct (upload_is_stored_and_recorded keep_text no_size noon "ann"
              sunset_jpg default_args two_users empty_disk
              (insert_data keep_text no_size noon "ann" (Some sunset_jpg)
                 default_args two_users empty_disk).1.2
              (insert_data keep_text no_size noon "ann" (Some sunset_jpg)
                 default_args two_users empty_disk).2
              eq_refl)
    as (u & t & Hu & Hget & Hfile & _ & Hfp & Hfn & _).
  injection Hu as <-.
  exists t. split; [exact Hget|]. split; [exact Hfile|].
  split; [exact Hfp|exact Hfn].
Defined.

(** The same upload without a title is titled "sunset". *)
Lemma title_falls_back_to_file_name_witness :
  ∃ t,
    get_entry_by_id 1 None
      (insert_data keep_text no_size noon "ann" (Some sunset_jpg)
         default_args two_users empty_disk).1.2 = Some t
    ∧ streamlit_app.get_entry_field t "title" = Ok (SText "sunset").
Proof.
  destruct (title_falls_back_to_file_name keep_text no_size noon "ann"
              (Some sunset_jpg) default_args two_users empty_disk
              (insert_data keep_text no_size noon "ann" (Some sunset_jpg)
                 default_args two_users empty_disk).1.2
              (insert_data keep_text no_size noon "ann" (Some sunset_jpg)
                 default_args two_users empty_disk).2
              eq_refl)
    as (t & Hget & Hdef & _).
  exists t. split; [exact Hget|]. exact (Hdef eq_refl).
Defined.

(** Entries 5 and 6 have distinct ids, and so has what is left after
    deleting entry 5. *)
Lemma operations_keep_ids_unique_witness :
  unique_ids two_entries
  ∧ unique_ids (delete_entry 5 None two_entries one_file).1.2.
Proof.
  assert (unique_ids two_entries) as Hu
    by (refine (bool_decide_unpack _ _); vm_compute; exact I).
  split; [exact Hu|].
  exact (proj2 (proj2 (operations_keep_ids_unique keep_text no_size noon
                         "ann" None default_args 5 [] None two_entries
                         one_file Hu))).
Defined.

(** After entry 6, the last one, is deleted, the next id is still above 6. *)
Lemma freed_id_not_given_again_witness :
  seq_bounds two_entries
  ∧ ∀ e, e ∈ entries two_entries →
         Entry.id e < next_id (delete_entry 6 None two_entries one_file).1.2.
Proof.
  assert (seq_bounds two_entries) as Hs.
  { intros e He.
    apply elem_of_cons in He as [->|He]; [discriminate|].
    apply elem_of_cons in He as [->|He]; [discriminate|]. inversion He. }
  split; [exact Hs|].
  exact (proj2 (proj2 (proj2 (freed_id_not_given_again keep_text no_size noon
                                "ann" None default_args 6 [] None two_entries
                                one_file Hs)))).
Defined.

(** User 7 saves a third entry and finds it under id 7. *)
Lemma new_entry_is_listed_witness :
  ∃ t,
    streamlit_app.get_entry_field t "id" = Ok (SInt 7)
    ∧ t ∈ search_entries "ann" "" "" "" false true
            (insert_data keep_text no_size noon "ann" None sunset_args
               two_entries one_file).1.2.
Proof.
  destruct (new_entry_is_listed keep_text no_size noon "ann" None sunset_args
              two_entries one_file
              (insert_data keep_text no_size noon "ann" None sunset_args
                 two_entries one_file).1.2
              (insert_data keep_text no_size noon "ann" None sunset_args
                 two_entries one_file).2
              eq_refl)
    as (t & Hid & _ & _ & Hs & _).
  exists t. split; [exact Hid|exact Hs].
Defined.

(** Entry 5 retitled "Dusk" reads back as "Dusk". *)
Lemma update_then_get_witness :
  ∃ t,
    get_entry_by_id 5 None
      (update_entry keep_text noon 5 [("title", PStr "Dusk")] None
         two_entries).2 = Some t
    ∧ streamlit_app.get_entry_field t "title" = Ok (SText "Dusk").
Proof.
  destruct (update_then_get keep_text noon 5 [("title", PStr "Dusk")] None
              two_entries "title" (PStr "Dusk"))
    as (t & b & Hget & Hb & Hf & _).
  - apply NoDup_singleton.
  - left.
  - left.
  - reflexivity.
  - exists t. split; [exact Hget|].
    rewrite Hf. injection Hb as <-. reflexivity.
Defined.

(** ** Delete *)

(** X13. Deleting is not repeatable, and a deleted entry is gone: after
    [delete_entry], whatever it returned, a second [delete_entry] with the
    same arguments returns [False] and changes nothing; and, for ids and
    owner ids that the engine can hold (64 bits), [get_entry_by_id] with the
    same id and owner argument returns [None], and entries of other ids are
    read as before. *)
Theorem delete_entry_removes entry_id user_id d fs :
  let r := delete_entry entry_id user_id d fs in
  delete_entry entry_id user_id r.1.2 r.2 = (false, r.1.2, r.2)
  ∧ (storable (PInt entry_id) →
     (∀ u, user_id = Some u → storable (PInt u)) →
     get_entry_by_id entry_id user_id r.1.2 = None)
  ∧ ∀ other owner,
      other ≠ entry_id →
      storable (PInt other) →
      (∀ u, owner = Some u → storable (PInt u)) →
      get_entry_by_id other owner r.1.2 = get_entry_by_id other owner d.
Proof.
  intros r. subst r.
  destruct (delete_entry_entries entry_id user_id d fs) as [He _].
  assert (List.find (λ e, holds (where_entry entry_id user_id e))
            (entries (delete_entry entry_id user_id d fs).1.2) = None) as Hnone.
  { rewrite He. apply find_all_false. intros x Hx.
    apply list_elem_of_filter in Hx as [Hx _].
    destruct (holds _); [exfalso; apply Hx; exact I|reflexivity]. }
  split; [unfold delete_entry at 1; rewrite Hnone; reflexivity|].
  split; [intros _ _; unfold get_entry_by_id; rewrite Hnone; reflexivity|].
  intros other owner Hne _ _. unfold get_entry_by_id. rewrite He.
  rewrite find_filter_keeps; [reflexivity|].
  intros x Hx Hdel. apply Is_true_true in Hdel.
  apply where_entry_targets in Hx as [Hx _].
  apply where_entry_targets in Hdel as [Hdel _]. congruence.
Qed.

(** X14. [delete_entry] touches no file but the one of an entry it
    addresses: the paths that cannot be written stay the same, and a path
    whose content differs afterwards is absent afterwards and is the
    [file_path] of an addressed entry. *)
Theorem delete_entry_files entry_id user_id d fs :
  let r := delete_entry entry_id user_id d fs in
  denied r.2 = denied fs
  ∧ ∀ p, files r.2 !! p ≠ files fs !! p →
         files r.2 !! p = None
         ∧ ∃ e, e ∈ entries d ∧ targets entry_id user_id e
                ∧ Entry.file_path e = Some p.
Proof.
  intros r. subst r. unfold delete_entry.
  destruct (List.find _ (entries d)) as [e|] eqn:Hfind;
    [|split; [reflexivity|intros p Hp; contradiction]].
  apply find_some in Hfind as [He Hw].
  apply list_elem_of_In in He. apply where_entry_targets in Hw.
  cbn [fst snd].
  destruct (Entry.file_path e) as [q|] eqn:Hq;
    [|split; [reflexivity|intros p Hp; contradiction]].
  destruct (truthy (PStr q) && path_exists q fs);
    [|split; [reflexivity|intros p Hp; contradiction]].
  unfold os_remove.
  destruct (bool_decide (q ∈ denied fs));
    [split; [reflexivity|intros p Hp; contradiction]|].
  destruct (path_exists q fs);
    [|split; [reflexivity|intros p Hp; contradiction]].
  cbn. split; [reflexivity|]. intros p Hp.
  destruct (decide (p = q)) as [->|Hne].
  - split; [apply lookup_delete_eq|]. exists e. auto.
  - rewrite lookup_delete_ne in Hp by congruence. contradiction.
Qed.

(** ** Listing *)


Lemma get_entries_named username user_id d :
  username ≠ "" →
  get_entries (Some username) user_id None d
  = Ok (select_tuple
          <$> order_by_uploaded_at_desc
                (filter (λ e, holds (text_eq (Entry.username e) username))
                        (entries d))).
Proof.
  intros Hu. unfold get_entries, entries_params, entries_where, name_given.
  rewrite (truthy_str_ne username Hu). reflexivity.
Qed.



Lemma get_entries_elem username user_id limit d l t :
  get_entries username user_id limit d = Ok l →
  t ∈ l →
  ∃ e, e ∈ entries d ∧ holds (entries_where username user_id e) = true
       ∧ t = select_tuple e.
Proof.
  unfold get_entries.
  destruct (bind_params _) as [ps|]; [|discriminate].
  cbn [mbind result_bind]. intros [= <-] Ht.
  apply list_elem_of_fmap in Ht as (e & -> & He). exists e.
  assert (e ∈ order_by_uploaded_at_desc
                (filter (λ e, holds (entries_where username user_id e))
                        (entries d))) as Hin.
  { destruct limit as [n|]; [|exact He].
    cbn [truthy] in He. destruct (negb (n =? 0)); [|exact He].
    unfold sql_limit in He.
    destruct (n <? 0); [exact He|].
    eapply elem_of_sublist; [exact He|apply sublist_take]. }
  rewrite order_by_Permutation in Hin.
  apply list_elem_of_filter in Hin as [Hh Hin].
  split; [exact Hin|]. split; [apply Is_true_true; exact Hh|reflexivity].
Qed.

(** X16. [get_entries] filters by one owner argument at a time: with a
    non-empty user name every tuple returned has that name, whatever the
    owner id passed; with no name, or the empty one, and an owner id other
    than 0, every tuple returned has that owner id. *)
Theorem get_entries_owner username user_id limit d l t :
  get_entries username user_id limit d = Ok l →
  t ∈ l →
  (∀ u, username = Some u → u ≠ "" →
        streamlit_app.get_entry_field t "username" = Ok (SText u))
  ∧ (∀ i, (username = None ∨ username = Some "") → user_id = Some i → i ≠ 0 →
          streamlit_app.get_entry_field t "user_id" = Ok (SInt i)).
Proof.
  intros Hl Ht.
  destruct (get_entries_elem _ _ _ _ _ _ Hl Ht) as (e & _ & Hh & ->).
  unfold entries_where, name_given, owner_given in Hh. split.
  - intros u -> Hu. rewrite select_tuple_username.
    rewrite (truthy_str_ne u Hu) in Hh.
    apply holds_text_eq in Hh. rewrite Hh. reflexivity.
  - intros i Hname -> Hi.
    assert (streamlit_app.get_entry_field (select_tuple e) "user_id"
            = Ok (of_int (Entry.user_id e))) as -> by (vm_compute; reflexivity).
    replace (truthy (PInt i)) with true in Hh
      by (unfold truthy; destruct (Z.eqb_spec i 0); [contradiction|reflexivity]).
    destruct Hname as [-> | ->]; cbn in Hh;
      (destruct (Entry.user_id e) as [x|]; [|discriminate]);
      cbn in Hh; case_bool_decide; try discriminate; subst; reflexivity.
Qed.

(** The listing of user 7 has entry 5, under the name "ann". *)
Lemma get_entries_owner_witness :
  get_entries (Some "ann") None None two_entries = Ok [select_tuple entry_5]
  ∧ streamlit_app.get_entry_field (select_tuple entry_5) "username"
    = Ok (SText "ann").
Proof.
  assert (get_entries (Some "ann") None None two_entries
          = Ok [select_tuple entry_5]) as Hl by (vm_compute; reflexivity).
  split; [exact Hl|].
  refine (proj1 (get_entries_owner (Some "ann") None None two_entries
                   [select_tuple entry_5] (select_tuple entry_5) Hl _)
            "ann" eq_refl _).
  - left.
  - discriminate.
Defined.

(** X17. A search without filters is the listing by name: for a non-empty
    user name, [get_entries] for that name without a limit, whatever owner
    id it is given, returns what [search_entries] returns with its default
    arguments. *)
Theorem search_defaults_is_get_entries username user_id d :
  username ≠ "" →
  get_entries (Some username) user_id None d
  = Ok (search_entries username "" "" "" false false d).
Proof.
  intros Hu. rewrite get_entries_named by exact Hu.
  rewrite search_entries_fits by reflexivity. do 3 f_equal.
  apply list_filter_iff. intros e. unfold passes_filters.
  cbn [truthy String.eqb negb orb]. rewrite !andb_true_r. reflexivity.
Qed.

(** For "ann", also when the owner id of another user is passed. *)
Lemma search_defaults_is_get_entries_witness :
  "ann" ≠ ""
  ∧ get_entries (Some "ann") (Some 8) None two_entries
    = Ok (search_entries "ann" "" "" "" false false two_entries).
Proof.
  split; [discriminate|].
  apply (search_defaults_is_get_entries "ann" (Some 8) two_entries).
  discriminate.
Defined.

Lemma uploaded_ge_cells (a b : entry) :
  uploaded_ge a b →
  cell_ge (tuple_uploaded_at (select_tuple a))
          (tuple_uploaded_at (select_tuple b)).
Proof.
  unfold uploaded_ge, cell_ge, tuple_uploaded_at. cbn.
  destruct (Entry.uploaded_at a), (Entry.uploaded_at b); cbn; tauto.
Qed.

(** X18. Listings come newest first: in what [search_entries] and
    [get_entries] return, with any filters and any limit, the [uploaded_at]
    of each tuple is at or above that of every tuple after it, a missing
    time being below every time. *)
Theorem listings_newest_first username search_query category tag
    favorites_only exclude_archived owner user_id limit d :
  StronglySorted (λ t1 t2, cell_ge (tuple_uploaded_at t1) (tuple_uploaded_at t2))
    (search_entries username search_query category tag favorites_only
       exclude_archived d)
  ∧ ∀ l, get_entries owner user_id limit d = Ok l →
         StronglySorted
           (λ t1 t2, cell_ge (tuple_uploaded_at t1) (tuple_uploaded_at t2)) l.
Proof.
  split.
  - unfold search_entries. destruct (scan _ (entries d)); [|constructor].
    apply (StronglySorted_fmap _ uploaded_ge); [apply uploaded_ge_cells|].
    apply order_by_sorted.
  - unfold get_entries. intros l.
    destruct (bind_params _) as [ps|]; [|discriminate].
    cbn [mbind result_bind]. intros [= <-].
    apply (StronglySorted_fmap _ uploaded_ge); [apply uploaded_ge_cells|].
    pose proof (order_by_sorted
                  (filter (λ e, holds (entries_where owner user_id e))
                          (entries d))) as Hs.
    destruct limit as [n|]; [|exact Hs].
    cbn [truthy]. destruct (negb (n =? 0)); [|exact Hs]. unfold sql_limit.
    destruct (n <? 0); [exact Hs|].
    rewrite <- (take_drop (Z.to_nat n)) in Hs.
    apply StronglySorted_app_1_l in Hs. exact Hs.
Qed.

(** ** The filters of a search *)

(** X19. A search stays with its owner, and filters only narrow it: every
    tuple [search_entries] returns has the user name searched for, and is
    also returned by the search for that name without filters. *)
Theorem search_stays_with_owner username search_query category tag
    favorites_only exclude_archived d t :
  t ∈ search_entries username search_query category tag favorites_only
        exclude_archived d →
  streamlit_app.get_entry_field t "username" = Ok (SText username)
  ∧ t ∈ search_entries username "" "" "" false false d.
Proof.
  intros Ht. apply search_entries_elem in Ht as (e & He & Hh & ->).
  apply search_where_passes in Hh as (_ & _ & _ & Hp).
  unfold passes_filters in Hp.
  repeat (apply andb_true_iff in Hp as [Hp _]). split.
  - rewrite select_tuple_username.
    apply holds_text_eq in Hp. rewrite Hp. reflexivity.
  - apply search_entries_elem. exists e. split; [exact He|].
    split; [|reflexivity].
    apply search_where_passes. repeat split; try reflexivity.
    unfold passes_filters. rewrite Hp. reflexivity.
Qed.

(** Entry 5, found for "ann" with archived entries excluded, is also found
    without that filter. *)
Lemma search_stays_with_owner_witness :
  select_tuple entry_5 ∈ search_entries "ann" "" "" "" false true two_entries
  ∧ select_tuple entry_5
    ∈ search_entries "ann" "" "" "" false false two_entries.
Proof.
  assert (select_tuple entry_5
          ∈ search_entries "ann" "" "" "" false true two_entries) as Hin
    by (replace (search_entries "ann" "" "" "" false true two_entries)
          with [select_tuple entry_5] by (vm_compute; reflexivity); left).
  split; [exact Hin|].
  exact (proj2 (search_stays_with_owner "ann" "" "" "" false true two_entries
                  (select_tuple entry_5) Hin)).
Defined.

(** X20. The category, tag and favourites filters of [search_entries] hold
    of every tuple returned, whatever the other filters: with a non-empty
    category free of NUL and of the wildcards of LIKE, the categories text
    has it as a substring before its first NUL, up to the case of the
    letters of ASCII; the same for a tag and the tags text; and with
    [favorites_only] the favourite flag is the integer 1. *)
Theorem search_filters_hold username search_query category tag favorites_only
    exclude_archived d t :
  t ∈ search_entries username search_query category tag favorites_only
        exclude_archived d →
  (category ≠ "" → wildcard_free category → nul_free category →
   ∃ s, streamlit_app.get_entry_field t "categories" = Ok (SText s)
        ∧ occurs_folded category (c_string s))
  ∧ (tag ≠ "" → wildcard_free tag → nul_free tag →
     ∃ s, streamlit_app.get_entry_field t "tags" = Ok (SText s)
          ∧ occurs_folded tag (c_string s))
  ∧ (favorites_only = true →
     streamlit_app.get_entry_field t "is_favorite" = Ok (SInt 1)).
Proof.
  intros Ht. apply search_entries_elem in Ht as (e & _ & Hh & ->).
  apply search_where_passes in Hh as (_ & _ & _ & Hp).
  unfold passes_filters in Hp.
  apply andb_true_iff in Hp as [Hp _].
  apply andb_true_iff in Hp as [Hp Hf].
  apply andb_true_iff in Hp as [Hp Hg].
  apply andb_true_iff in Hp as [_ Hc].
  split; [|split].
  - intros Hne Hw Hn. rewrite (truthy_str_ne category Hne) in Hc.
    cbn [negb orb] in Hc. unfold column_like in Hc.
    rewrite select_tuple_categories.
    destruct (Entry.categories e) as [s|]; [|discriminate].
    exists s. split; [reflexivity|]. apply like_occurs_inv; assumption.
  - intros Hne Hw Hn. rewrite (truthy_str_ne tag Hne) in Hg.
    cbn [negb orb] in Hg. unfold column_like in Hg.
    rewrite select_tuple_tags.
    destruct (Entry.tags e) as [s|]; [|discriminate].
    exists s. split; [reflexivity|]. apply like_occurs_inv; assumption.
  - intros ->. cbn [negb orb] in Hf.
    assert (streamlit_app.get_entry_field (select_tuple e) "is_favorite"
            = Ok (Entry.is_favorite e)) as -> by (vm_compute; reflexivity).
    destruct (Entry.is_favorite e) as [|z|s]; cbn in Hf; try discriminate.
    case_bool_decide; [subst; reflexivity|discriminate].
Qed.

(** Entry 6, found for "bob" under the category "A", has the categories
    "a, b". *)
Lemma search_filters_hold_witness :
  select_tuple entry_6 ∈ search_entries "bob" "" "A" "" false false two_entries
  ∧ ∃ s, streamlit_app.get_entry_field (select_tuple entry_6) "categories"
         = Ok (SText s)
         ∧ occurs_folded "A" (c_string s).
Proof.
  assert (select_tuple entry_6
          ∈ search_entries "bob" "" "A" "" false false two_entries) as Hin
    by (replace (search_entries "bob" "" "A" "" false false two_entries)
          with [select_tuple entry_6] by (vm_compute; reflexivity); left).
  split; [exact Hin|].
  refine (proj1 (search_filters_hold "bob" "" "A" "" false false two_entries
                   (select_tuple entry_6) Hin) _ _ _).
  - discriminate.
  - intros c Hc. apply list_elem_of_singleton in Hc as ->.
    split; discriminate.
  - reflexivity.
Defined.

(** ** Labels, from the save to the list of labels *)

Lemma contains_comma_cons c s :
  Py.contains "," (String c s)
  = (if Ascii.eqb c "," then true else Py.contains "," s).
Proof.
  cbn [Py.contains String.prefix].
  destruct (ascii_dec "," c) as [<-|Hne].
  - destruct s; reflexivity.
  - destruct (Ascii.eqb_spec c ","); [congruence|]. reflexivity.
Qed.

Lemma split_comma_free s : comma_free s → Py.split "," s = [s].
Proof.
  unfold comma_free. induction s as [|c s IH]; [reflexivity|].
  rewrite contains_comma_cons. cbn [Py.split].
  destruct (Ascii.eqb c ","); [discriminate|].
  intros H. rewrite (IH H). reflexivity.
Qed.

Lemma split_comma_app a b :
  comma_free a →
  Py.split "," (a ++ String "," b) = a :: Py.split "," b.
Proof.
  unfold comma_free. induction a as [|c a IH].
  - intros _. reflexivity.
  - rewrite contains_comma_cons.
    change (String c a ++ String "," b) with (String c (a ++ String "," b)).
    cbn [Py.split]. destruct (Ascii.eqb c ","); [discriminate|].
    intros H. rewrite (IH H). reflexivity.
Qed.

Lemma join_cons sep x y l :
  Py.join sep (x :: y :: l) = x ++ sep ++ Py.join sep (y :: l).
Proof. reflexivity. Qed.

Lemma join_space sep y l :
  String " " (Py.join sep (y :: l)) = Py.join sep (String " " y :: l).
Proof. destruct l; reflexivity. Qed.

Lemma split_join x l :
  comma_free x → Forall comma_free l →
  Py.split "," (Py.join ", " (x :: l)) = x :: (String " " <$> l).
Proof.
  revert x. induction l as [|y l IH]; intros x Hx Hl.
  - apply split_comma_free, Hx.
  - apply Forall_cons in Hl as [Hy Hl].
    rewrite join_cons.
    change (x ++ ", " ++ Py.join ", " (y :: l))
      with (x ++ String "," (String " " (Py.join ", " (y :: l)))).
    rewrite split_comma_app by exact Hx. f_equal.
    rewrite join_space.
    rewrite IH; [reflexivity| |exact Hl].
    unfold comma_free in *. rewrite contains_comma_cons. exact Hy.
Qed.

Lemma strip_space s : Py.strip (String " " s) = Py.strip s.
Proof. reflexivity. Qed.

Lemma labels_of_join l :
  l ≠ [] → Forall comma_free l →
  labels_of (Py.join ", " l) = Py.strip <$> l.
Proof.
  destruct l as [|x l]; [congruence|]. intros _ Hl.
  apply Forall_cons in Hl as [Hx Hl]. unfold labels_of.
  rewrite split_join by assumption. cbn [fmap list_fmap]. f_equal.
  rewrite <- list_fmap_compose. apply list_fmap_ext. intros i y _.
  apply strip_space.
Qed.

Section Labels.

Variable numeric_of_text : string → sqlval.
Variable image_size : list Byte.byte → option (Z * Z).

(** X21. Labels saved as a list come back as labels: after a successful
    [insert_data] whose categories are a list of strings without commas,
    not all of it one empty string, [get_all_categories] for the owner
    lists every item of the list, stripped of surrounding white space; the
    same holds of the tags and [get_all_tags]. *)
Theorem created_labels_are_listed now username image_file a d fs d' fs' :
  insert_data numeric_of_text image_size now username image_file a d fs
  = (Saved, d', fs') →
  (∀ l, arg_categories a = PList (PStr <$> l) →
        Forall comma_free l → Py.join ", " l ≠ "" →
        ∀ c, c ∈ l → Py.strip c ∈ get_all_categories username d')
  ∧ (∀ l, arg_tags a = PList (PStr <$> l) →
          Forall comma_free l → Py.join ", " l ≠ "" →
          ∀ c, c ∈ l → Py.strip c ∈ get_all_tags username d').
Proof.
  intros Hins.
  apply insert_data_saved in Hins
    as (r & cs & ts & bs & bc & bt & -> & _ & Hu & _ & _ & _ & _ & _
        & Hc & Hbc & Hrc & Ht & Hbt & Hrt).
  assert (r ∈ (entries d ++ [r])%list) as Hin
    by (apply elem_of_app; right; left).
  split; intros l Ha Hl Hne c Hcl.
  - rewrite Ha in Hc. cbn in Hc. rewrite join_items_strs in Hc.
    cbn in Hc. injection Hc as <-. cbn in Hbc. injection Hbc as <-.
    apply (distinct_labels_lists Entry.categories).
    exists r, (Py.join ", " l). cbn [entries].
    split; [exact Hin|]. split; [exact Hu|]. split; [exact Hrc|].
    split; [exact Hne|].
    rewrite labels_of_join; [|intros ->; inversion Hcl|exact Hl].
    apply list_elem_of_fmap_2, Hcl.
  - rewrite Ha in Ht. cbn in Ht. rewrite join_items_strs in Ht.
    cbn in Ht. injection Ht as <-. cbn in Hbt. injection Hbt as <-.
    apply (distinct_labels_lists Entry.tags).
    exists r, (Py.join ", " l). cbn [entries].
    split; [exact Hin|]. split; [exact Hu|]. split; [exact Hrt|].
    split; [exact Hne|].
    rewrite labels_of_join; [|intros ->; inversion Hcl|exact Hl].
    apply list_elem_of_fmap_2, Hcl.
Qed.

End Labels.

(** User 7 saves an entry with the categories "nature" and "outdoor", and
    "outdoor" is among the categories listed. *)
Lemma created_labels_are_listed_witness :
  "outdoor"
  ∈ get_all_categories "ann"
      (insert_data keep_text no_size noon "ann" None sunset_args two_users
         empty_disk).1.2.
Proof.
  refine (proj1 (created_labels_are_listed keep_text no_size noon "ann" None
                   sunset_args two_users empty_disk
                   (insert_data keep_text no_size noon "ann" None sunset_args
                      two_users empty_disk).1.2
                   (insert_data keep_text no_size noon "ann" None sunset_args
                      two_users empty_disk).2
                   eq_refl)
            ["nature"; "outdoor"] eq_refl _ _ "outdoor" _).
  - repeat constructor.
  - discriminate.
  - right. left.
Defined.

(** ** Scenarios *)

(** An upload named "sunset.jpg" without a title is titled "sunset"; without
    a file and a title the entry is titled "Untitled"; an unknown owner is
    refused. *)
Example insert_data_default_title :
  Entry.title
    <$> last (entries
                (insert_data keep_text no_size noon "ann"
                   (Some {| name := "sunset.jpg"; getbuffer := [] |})
                   default_args two_users empty_disk).1.2)
  = Some (Some "sunset")
  ∧ Entry.title
      <$> last (entries
                  (insert_data keep_text no_size noon "ann" None default_args
                     two_users empty_disk).1.2)
    = Some (Some "Untitled")
  ∧ succeeded
      (insert_data keep_text no_size noon "carol" None default_args
         two_users empty_disk).1.1 = false.
Proof. repeat split; vm_compute; reflexivity. Qed.

(** With archived entries excluded, the entry whose flag is NULL is found
    and the archived one is not. *)
Example search_entries_archived :
  search_entries "ann" "" "" "" false true two_entries = [select_tuple entry_5]
  ∧ search_entries "bob" "" "" "" false true two_entries = []
  ∧ search_entries "bob" "" "" "" false false two_entries
    = [select_tuple entry_6].
Proof. repeat split; vm_compute; reflexivity. Qed.
